(** * The ledger engine of [app/blockchain_server.py]

    A shallow embedding of the classes [Block] and [BlockChain] and of the
    module-level function [consensus], followed by the properties of the
    ledger that the specification states about them.

    Python values are modelled as follows.
    - [int] is [Z]; [str] is [string], one character per code point below 256;
    - the JSON-serialisable values that travel through [content], [timestamp]
      and the peers' answers are the inductive type [json];
    - an attribute that [delattr] can remove is an [option];
    - a method that mutates [self] returns the new object with its answer,
      and an exception is an answer of its own ([Raise]);
    - the unbounded [while] loop of [proof_of_work] takes fuel, one unit per
      evaluation of its condition. *)

From Stdlib Require Import ZArith List String Ascii Bool Lia DecimalString.
Import ListNotations.

Local Open Scope string_scope.
Local Open Scope list_scope.
Local Open Scope Z_scope.

(** ** [hashlib.sha256]: FIPS 180-4 over 32-bit words held in [Z] *)

Module Sha256.

Definition mask32 : Z := 4294967295.

Definition add32 (x y : Z) : Z := Z.land (x + y) mask32.

Definition rotr (n x : Z) : Z :=
  Z.lor (Z.shiftr x n) (Z.land (Z.shiftl x (32 - n)) mask32).

Definition xor3 (x y z : Z) : Z := Z.lxor (Z.lxor x y) z.

Definition choose (x y z : Z) : Z :=
  Z.lxor (Z.land x y) (Z.land (Z.lxor x mask32) z).

Definition majority (x y z : Z) : Z :=
  xor3 (Z.land x y) (Z.land x z) (Z.land y z).

Definition big_sigma0 (x : Z) : Z := xor3 (rotr 2 x) (rotr 13 x) (rotr 22 x).
Definition big_sigma1 (x : Z) : Z := xor3 (rotr 6 x) (rotr 11 x) (rotr 25 x).
Definition small_sigma0 (x : Z) : Z := xor3 (rotr 7 x) (rotr 18 x) (Z.shiftr x 3).
Definition small_sigma1 (x : Z) : Z := xor3 (rotr 17 x) (rotr 19 x) (Z.shiftr x 10).

(** The round constants, in decimal. *)
Definition round_constants : list Z :=
  [ 1116352408; 1899447441; 3049323471; 3921009573;
    961987163; 1508970993; 2453635748; 2870763221;
    3624381080; 310598401; 607225278; 1426881987;
    1925078388; 2162078206; 2614888103; 3248222580;
    3835390401; 4022224774; 264347078; 604807628;
    770255983; 1249150122; 1555081692; 1996064986;
    2554220882; 2821834349; 2952996808; 3210313671;
    3336571891; 3584528711; 113926993; 338241895;
    666307205; 773529912; 1294757372; 1396182291;
    1695183700; 1986661051; 2177026350; 2456956037;
    2730485921; 2820302411; 3259730800; 3345764771;
    3516065817; 3600352804; 4094571909; 275423344;
    430227734; 506948616; 659060556; 883997877;
    958139571; 1322822218; 1537002063; 1747873779;
    1955562222; 2024104815; 2227730452; 2361852424;
    2428436474; 2756734187; 3204031479; 3329325298 ].

Record state : Type := mkState {
  sa : Z; sb : Z; sc : Z; sd : Z; se : Z; sf : Z; sg : Z; sh : Z
}.

Definition initial_state : state :=
  mkState 1779033703 3144134277 1013904242 2773480762
          1359893119 2600822924 528734635 1541459225.

(** The message schedule: [window] holds the sixteen words W[t..t+15]. *)
Fixpoint schedule (n : nat) (window : list Z) : list Z :=
  match n, window with
  | S n', w0 :: rest =>
      let w1 := nth 0 rest 0 in
      let w9 := nth 8 rest 0 in
      let w14 := nth 13 rest 0 in
      let next := add32 (add32 (small_sigma1 w14) w9) (add32 (small_sigma0 w1) w0) in
      w0 :: schedule n' (rest ++ [next])
  | _, _ => []
  end.

Definition round (s : state) (kw : Z * Z) : state :=
  let t1 := add32 (add32 (add32 (sh s) (big_sigma1 (se s)))
                         (add32 (choose (se s) (sf s) (sg s)) (fst kw)))
                  (snd kw) in
  let t2 := add32 (big_sigma0 (sa s)) (majority (sa s) (sb s) (sc s)) in
  mkState (add32 t1 t2) (sa s) (sb s) (sc s) (add32 (sd s) t1) (se s) (sf s) (sg s).

Definition compress (s : state) (block : list Z) : state :=
  let s' := fold_left round (combine round_constants (schedule 64 block)) s in
  mkState (add32 (sa s) (sa s')) (add32 (sb s) (sb s')) (add32 (sc s) (sc s'))
          (add32 (sd s) (sd s')) (add32 (se s) (se s')) (add32 (sf s) (sf s'))
          (add32 (sg s) (sg s')) (add32 (sh s) (sh s')).

(** Big-endian bytes of the low [n] bytes of [x]. *)
Fixpoint be_bytes (n : nat) (x : Z) : list Z :=
  match n with
  | O => []
  | S n' => Z.land (Z.shiftr x (8 * Z.of_nat n')) 255 :: be_bytes n' x
  end.

Definition pad (msg : list Z) : list Z :=
  let len := Z.of_nat (List.length msg) in
  let zeros := Z.to_nat ((55 - len) mod 64) in
  msg ++ 128 :: repeat 0 zeros ++ be_bytes 8 (8 * len).

(** Words of a byte sequence, four bytes each, big-endian. *)
Fixpoint words (bytes : list Z) : list Z :=
  match bytes with
  | b0 :: b1 :: b2 :: b3 :: rest =>
      (((b0 * 256 + b1) * 256 + b2) * 256 + b3) :: words rest
  | _ => []
  end.

Fixpoint blocks (n : nat) (ws : list Z) : list (list Z) :=
  match n with
  | O => []
  | S n' => firstn 16 ws :: blocks n' (skipn 16 ws)
  end.

Definition digest_words (msg : list Z) : list Z :=
  let ws := words (pad msg) in
  let s := fold_left compress (blocks (List.length ws / 16) ws) initial_state in
  [sa s; sb s; sc s; sd s; se s; sf s; sg s; sh s].

Definition hex_digit (d : Z) : ascii :=
  ascii_of_nat (Z.to_nat (if d <? 10 then 48 + d else 87 + d)).

Definition hex_byte (b : Z) (tail : string) : string :=
  String (hex_digit (Z.shiftr b 4)) (String (hex_digit (Z.land b 15)) tail).

Definition bytes_of_string (s : string) : list Z :=
  map (fun c => Z.of_nat (nat_of_ascii c)) (list_ascii_of_string s).

(** [sha256(s.encode()).hexdigest()] for a string [s] of ASCII characters. *)
Definition hexdigest (s : string) : string :=
  fold_right hex_byte EmptyString
    (flat_map (be_bytes 4) (digest_words (bytes_of_string s))).

End Sha256.

(** ** JSON values and [json.dumps(_, sort_keys=True)] *)

(** The values [json.dumps] serialises and [response.json()] returns.  A
    finite [float] is identified by the text [float.__repr__] gives for it,
    which is also the text [json.dumps] writes. *)
#[local] Set Warnings "-register-all".
Inductive json : Type :=
  | JNull
  | JBool (b : bool)
  | JInt (z : Z)
  | JFloat (repr : string)
  | JStr (s : string)
  | JList (items : list json)
  | JDict (items : list (string * json)).
#[local] Set Warnings "register-all".

Definition backslash : ascii := ascii_of_nat 92.
Definition double_quote : ascii := ascii_of_nat 34.

(** One character of a string literal under [ensure_ascii=True]. *)
Definition escape_char (c : ascii) (tail : string) : string :=
  let n := Z.of_nat (nat_of_ascii c) in
  if n =? 34 then String backslash (String double_quote tail)
  else if n =? 92 then String backslash (String backslash tail)
  else if n =? 8 then String backslash (String "b" tail)
  else if n =? 12 then String backslash (String "f" tail)
  else if n =? 10 then String backslash (String "n" tail)
  else if n =? 13 then String backslash (String "r" tail)
  else if n =? 9 then String backslash (String "t" tail)
  else if (n <? 32) || (126 <? n)
       then String backslash (String "u" (String "0" (String "0" (Sha256.hex_byte n tail))))
  else String c tail.

Fixpoint escape_string (s : string) : string :=
  match s with
  | EmptyString => EmptyString
  | String c rest => escape_char c (escape_string rest)
  end.

Definition quoted (s : string) : string :=
  String double_quote (escape_string s ++ String double_quote EmptyString)%string.

Fixpoint join (sep : string) (parts : list string) : string :=
  match parts with
  | [] => EmptyString
  | [p] => p
  | p :: rest => (p ++ sep ++ join sep rest)%string
  end.

(** [sorted(dct.items())] on string keys: a stable insertion sort. *)
Fixpoint insert_item (kv : string * string) (sorted : list (string * string))
  : list (string * string) :=
  match sorted with
  | [] => [kv]
  | kv' :: rest =>
      if String.leb (fst kv) (fst kv') then kv :: sorted
      else kv' :: insert_item kv rest
  end.

Definition sort_items (items : list (string * string)) : list (string * string) :=
  fold_right insert_item [] items.

Definition str_of_int (z : Z) : string := NilZero.string_of_int (Z.to_int z).

Fixpoint json_dumps (j : json) : string :=
  match j with
  | JNull => "null"
  | JBool true => "true"
  | JBool false => "false"
  | JInt z => str_of_int z
  | JFloat repr => repr
  | JStr s => quoted s
  | JList items => ("[" ++ join ", " (map json_dumps items) ++ "]")%string
  | JDict items =>
      let rendered := map (fun kv => match kv with (k, v) => (k, json_dumps v) end) items in
      ("{" ++ join ", " (map (fun kv => quoted (fst kv) ++ ": " ++ snd kv)%string
                             (sort_items rendered)) ++ "}")%string
  end.

(** ** Python answers *)

Inductive exn : Type := AttributeError | IndexError.

(** What a call answers: the value it returns or the exception it raises. *)
Inductive answer (A : Type) : Type :=
  | Return (a : A)
  | Raise (e : exn).
Arguments Return {A} a.
Arguments Raise {A} e.

(** [self.startswith(prefix)] and ['0' * n] (empty when [n <= 0]). *)
Definition startswith (self prefix : string) : bool := String.prefix prefix self.

Fixpoint str_repeat (c : ascii) (n : nat) : string :=
  match n with
  | O => EmptyString
  | S n' => String c (str_repeat c n')
  end.

Definition zeros (difficulty : Z) : string := str_repeat "0" (Z.to_nat difficulty).

(** ** class Block *)

Record Block : Type := mkBlock {
  index : Z;
  content : list json;
  previous_hash : string;
  timestamp : json;
  nonce : Z;
  hashcode : option string;
  this_hash : option string
}.

Definition set_nonce (n : Z) (b : Block) : Block :=
  mkBlock (index b) (content b) (previous_hash b) (timestamp b) n (hashcode b) (this_hash b).

Definition set_hashcode (h : option string) (b : Block) : Block :=
  mkBlock (index b) (content b) (previous_hash b) (timestamp b) (nonce b) h (this_hash b).

Definition set_this_hash (h : option string) (b : Block) : Block :=
  mkBlock (index b) (content b) (previous_hash b) (timestamp b) (nonce b) (hashcode b) h.

(** The dictionary [info] of [compute_hash], keys in the order written. *)
Definition info (self : Block) : json :=
  JDict [ ("index", JInt (index self)); ("content", JList (content self));
          ("previous_hash", JStr (previous_hash self));
          ("timestamp", timestamp self); ("nonce", JInt (nonce self)) ].

Definition compute_hash (self : Block) : string :=
  let block_string := json_dumps (info self) in
  Sha256.hexdigest block_string.

(** [Block(index, content, previous_hash, timestamp, nonce, hashcode)].

    The header is [def __init__(self, index, content, previous_hash,
    timestamp=time.time(), nonce=0, hashcode=None)]: Python evaluates the
    default of [timestamp] once, when the [def] statement is executed, so the
    function carries that one value, [import_time], for every later call
    that passes no timestamp.  The body assigns [self.nonce = 0] and
    [self.hashcode = self.compute_hash] whatever [nonce] and [hashcode] are. *)
Definition Block_init (import_time : json) (index : Z) (content : list json)
    (previous_hash : string) (timestamp : option json)
    (nonce : option Z) (hashcode : option string) : Block :=
  let timestamp :=
    match timestamp with Some t => t | None => import_time end in
  let self := mkBlock index content previous_hash timestamp 0 None None in
  set_hashcode (Some (compute_hash self)) self.

(** [self.proof_of_work(difficulty)]: one unit of fuel per test of the
    [while] condition; [None] when the fuel runs out before the loop ends. *)
Fixpoint proof_of_work (fuel : nat) (self : Block) (difficulty : Z)
  : option (answer unit * Block) :=
  match fuel with
  | O => None
  | S fuel' =>
      match hashcode self with
      | None => Some (Raise AttributeError, self)
      | Some h =>
          if negb (startswith h (zeros difficulty)) then
            let self := set_nonce (nonce self + 1) self in
            let self := set_hashcode (Some (compute_hash self)) self in
            proof_of_work fuel' self difficulty
          else Some (Return tt, self)
      end
  end.

(** ** class BlockChain *)

Definition difficulty : Z := 4.

Record BlockChain : Type := mkBlockChain {
  unconfirmed_data : list json;
  chain : list Block
}.

Definition set_chain (c : list Block) (self : BlockChain) : BlockChain :=
  mkBlockChain (unconfirmed_data self) c.

Definition set_unconfirmed_data (d : list json) (self : BlockChain) : BlockChain :=
  mkBlockChain d (chain self).

(** [BlockChain()]: [__init__] followed by [_generate_genesis_block]. *)
Definition BlockChain_init (import_time : json) (fuel : nat)
  : option (answer unit * BlockChain) :=
  let self := mkBlockChain [] [] in
  let genesis_block := Block_init import_time 0 [] "0" None None None in
  match proof_of_work fuel genesis_block difficulty with
  | None => None
  | Some (Raise e, _) => Some (Raise e, self)
  | Some (Return _, genesis_block) =>
      Some (Return tt, set_chain (chain self ++ [genesis_block]) self)
  end.

(** [self.last_block], that is [self.chain[-1]]. *)
Definition last_block (self : BlockChain) : answer Block :=
  match rev (chain self) with
  | [] => Raise IndexError
  | b :: _ => Return b
  end.

Definition add_data (self : BlockChain) (data : json) : BlockChain :=
  set_unconfirmed_data (unconfirmed_data self ++ [data]) self.

Definition is_valid_proof (block : Block) (block_hash : string) : bool :=
  startswith block_hash (zeros difficulty)
  && String.eqb block_hash (compute_hash block).

(** [self.add_block(block, proof)]; the block appended is the caller's
    object after [block.hashcode = proof]. *)
Definition add_block (self : BlockChain) (block : Block) (proof : string)
  : answer bool * BlockChain :=
  match last_block self with
  | Raise e => (Raise e, self)
  | Return last =>
      match hashcode last with
      | None => (Raise AttributeError, self)
      | Some previous_hash' =>
          if negb (String.eqb previous_hash' (previous_hash block)) then
            (Return false, self)
          else if negb (is_valid_proof block proof) then
            (Return false, self)
          else
            let block := set_hashcode (Some proof) block in
            (Return true, set_chain (chain self ++ [block]) self)
      end
  end.

(** What [mine] returns: [False] or the index of the last block. *)
Inductive mined : Type :=
  | MinedFalse
  | MinedIndex (i : Z).

Definition mine (import_time : json) (fuel : nat) (self : BlockChain)
  : option (answer mined * BlockChain) :=
  match last_block self with
  | Raise e => Some (Raise e, self)
  | Return current_last =>
      match unconfirmed_data self with
      | [] => Some (Return MinedFalse, self)
      | _ :: _ =>
          match hashcode current_last with
          | None => Some (Raise AttributeError, self)
          | Some last_hash =>
              let new_block :=
                Block_init import_time (index current_last + 1)
                  (unconfirmed_data self) last_hash None None None in
              match proof_of_work fuel new_block difficulty with
              | None => None
              | Some (Raise e, _) => Some (Raise e, self)
              | Some (Return _, new_block) =>
                  match hashcode new_block with
                  | None => Some (Raise AttributeError, self)
                  | Some proof =>
                      match add_block self new_block proof with
                      | (Raise e, self) => Some (Raise e, self)
                      | (Return _, self) =>
                          let self := set_unconfirmed_data [] self in
                          match last_block self with
                          | Raise e => Some (Raise e, self)
                          | Return last => Some (Return (MinedIndex (index last)), self)
                          end
                      end
                  end
              end
          end
      end
  end.

(** An element of the sequence handed to [chain_is_valid]: a [Block]
    object, or a value decoded from JSON (a [dict] in a peer's answer),
    which has no attribute [hashcode]. *)
Inductive item : Type :=
  | ItemBlock (b : Block)
  | ItemJson (j : json).

(** The loop of [chain_is_valid] from its current [previous_hash]; the
    second component is the sequence with the blocks as the loop left them
    ([delattr(block, "hashcode")], then [block.this_hash = block_hash]).
    The elements are taken to be distinct objects. *)
Fixpoint chain_is_valid_loop (previous_hash' : string) (chain : list item)
  : answer bool * list item :=
  match chain with
  | [] => (Return true, [])
  | ItemJson j :: rest => (Raise AttributeError, chain)
  | ItemBlock block :: rest =>
      match hashcode block with
      | None => (Raise AttributeError, chain)
      | Some block_hash =>
          let block := set_hashcode None block in
          if negb (is_valid_proof block block_hash)
             || negb (negb (String.eqb previous_hash' (previous_hash block)))
          then (Return false, ItemBlock block :: rest)
          else
            let block := set_this_hash (Some block_hash) block in
            let (r, rest') := chain_is_valid_loop block_hash rest in
            (r, ItemBlock block :: rest')
      end
  end.

Definition chain_is_valid (chain : list item) : answer bool * list item :=
  chain_is_valid_loop "0" chain.

(** ** The module-level [blockchain] and [consensus] *)

(** What the global [blockchain] is bound to: a [BlockChain], or the raw
    list [consensus] assigns to it. *)
Inductive global : Type :=
  | GBlockChain (bc : BlockChain)
  | GList (l : list json).

(** The fields [consensus] reads in a peer's answer to [GET /chain]. *)
Record response : Type := mkResponse {
  resp_chain : list json;
  resp_length : Z
}.

(** The [for node in peers] loop, over the answers in iteration order. *)
Fixpoint consensus_loop (responses : list response)
    (longest_chain : option (list json)) (max_len : Z)
  : answer (option (list json)) :=
  match responses with
  | [] => Return longest_chain
  | r :: rest =>
      let node_chain := resp_chain r in
      let length := resp_length r in
      if max_len <? length then
        match fst (chain_is_valid (map ItemJson node_chain)) with
        | Raise e => Raise e
        | Return true => consensus_loop rest (Some node_chain) length
        | Return false => consensus_loop rest longest_chain max_len
        end
      else consensus_loop rest longest_chain max_len
  end.

Definition consensus (blockchain : global) (responses : list response)
  : answer bool * global :=
  match blockchain with
  | GList _ => (Raise AttributeError, blockchain)
  | GBlockChain bc =>
      let max_len := Z.of_nat (List.length (chain bc)) in
      match consensus_loop responses None max_len with
      | Raise e => (Raise e, blockchain)
      | Return longest_chain =>
          (* [if longest_chain:] holds for a non-empty list only *)
          match longest_chain with
          | Some (_ :: _ as l) => (Return true, GList l)
          | Some [] | None => (Return false, blockchain)
          end
      end
  end.

(** [block.__dict__] as [get_chain] serialises it: the attributes the
    object has, in the order they were first assigned. *)
Definition Block_dict (b : Block) : json :=
  JDict ([ ("index", JInt (index b)); ("content", JList (content b));
           ("previous_hash", JStr (previous_hash b));
           ("timestamp", timestamp b); ("nonce", JInt (nonce b)) ]
         ++ match hashcode b with Some h => [("hashcode", JStr h)] | None => [] end
         ++ match this_hash b with Some h => [("this_hash", JStr h)] | None => [] end).

(** The answer of a peer that runs [get_chain] on the ledger [bc]. *)
Definition get_chain (bc : BlockChain) : response :=
  mkResponse (map Block_dict (chain bc)) (Z.of_nat (List.length (chain bc))).

(** ** Ledger operations and reachable ledgers *)

Inductive operation : Type :=
  | Submit (record : json)
  | Mine
  | Accept (block : Block) (proof : string).

(** The ledger an operation leaves behind, whatever it answers; [None]
    when the fuel does not suffice for the mining loop. *)
Definition run (import_time : json) (fuel : nat) (op : operation)
    (self : BlockChain) : option BlockChain :=
  match op with
  | Submit record => Some (add_data self record)
  | Mine => option_map snd (mine import_time fuel self)
  | Accept block proof => Some (snd (add_block self block proof))
  end.

(** Ledgers reached from [BlockChain()] by operations that [allowed] admits. *)
Inductive reachable (import_time : json)
    (allowed : BlockChain -> operation -> Prop) : BlockChain -> Prop :=
  | reach_fresh : forall fuel self,
      BlockChain_init import_time fuel = Some (Return tt, self) ->
      reachable import_time allowed self
  | reach_step : forall fuel op self self',
      reachable import_time allowed self ->
      allowed self op ->
      run import_time fuel op self = Some self' ->
      reachable import_time allowed self'.

Definition any_operation (self : BlockChain) (op : operation) : Prop := True.

(** The block handed to [add_block] carries the next position as its index. *)
Definition accepts_next_index (self : BlockChain) (op : operation) : Prop :=
  match op with
  | Accept block _ => index block = Z.of_nat (List.length (chain self))
  | _ => True
  end.

(** [blocks[i].index == i] for every position [i]. *)
Definition indexed (blocks : list Block) : Prop :=
  forall i b, nth_error blocks i = Some b -> index b = Z.of_nat i.

(** A block whose stored hash passes [is_valid_proof]. *)
Definition sealed (b : Block) : bool :=
  match hashcode b with
  | Some h => is_valid_proof b h
  | None => false
  end.

Definition has_hashcode (b : Block) : bool :=
  match hashcode b with Some _ => true | None => false end.

(** The nonce [n] solves the puzzle of [b] at [difficulty]. *)
Definition solves (difficulty : Z) (b : Block) (n : Z) : Prop :=
  startswith (compute_hash (set_nonce n b)) (zeros difficulty) = true.

(** ** The constructor and validation as the specification words them *)

(** The specification's [construct(index, payload, previous_hash,
    timestamp=now, nonce=0)]: without a timestamp the block gets [now], the
    moment of the call. *)
Definition construct_spec (now : json) (index : Z) (payload : list json)
    (previous_hash : string) (timestamp : option json) : Block :=
  let timestamp := match timestamp with Some t => t | None => now end in
  let self := mkBlock index payload previous_hash timestamp 0 None None in
  set_hashcode (Some (compute_hash self)) self.

(** The specification's [validate]: the genesis block is accepted as it is;
    every later block must have a recomputed hash that meets the
    proof-of-work predicate and a [previous_hash] equal to the recomputed
    hash of the block before it. *)
Fixpoint validate_spec_from (previous : Block) (rest : list Block) : bool :=
  match rest with
  | [] => true
  | b :: rest' =>
      startswith (compute_hash b) (zeros difficulty)
      && String.eqb (previous_hash b) (compute_hash previous)
      && validate_spec_from b rest'
  end.

Definition validate_spec (blocks : list Block) : bool :=
  match blocks with
  | [] => true
  | genesis :: rest => validate_spec_from genesis rest
  end.

(** ** A run of the node, used for the concrete instances below *)

(** The value of [time.time()] when the module was imported. *)
Definition ex_import_time : json := JFloat "1700003346.5".

Definition ex_genesis_hash : string :=
  "0000008ee0ea5933d3cf80b54a8be615a42f6c44e0a73ead098a56ab56afa037".

(** The genesis block [BlockChain()] ends with: the search stops at nonce 2. *)
Definition ex_genesis : Block :=
  mkBlock 0 [] "0" ex_import_time 2 (Some ex_genesis_hash) None.

Definition ex_ledger : BlockChain := mkBlockChain [] [ex_genesis].

(** Two records as [add_new_data] hands them to [add_data]. *)
Definition ex_record1 : json :=
  JDict [ ("author", JStr "alice"); ("content", JStr "hello");
          ("timestamp", JFloat "1700003406.75") ].

Definition ex_record2 : json :=
  JDict [ ("author", JStr "bob"); ("content", JStr "world");
          ("timestamp", JFloat "1700004040.625") ].

Definition ex_pending : BlockChain :=
  add_data (add_data ex_ledger ex_record1) ex_record2.

(** The block [mine] seals from the two records: nonce 1. *)
Definition ex_block1 : Block :=
  mkBlock 1 [ex_record1; ex_record2] ex_genesis_hash ex_import_time 1
    (Some "0000a174f03bab2fff56213d4ac7192af41e77328f8cf08821612ca243fd2571") None.

Definition ex_mined : BlockChain := mkBlockChain [] [ex_genesis; ex_block1].

(** A block a peer built on the genesis block with index 7, sealed at nonce 3. *)
Definition ex_foreign : Block :=
  mkBlock 7 [] ex_genesis_hash (JFloat "1700006168.25") 3
    (Some "0000bbe5cd24c130c375aee0eddd252cfc7433b8285c890219db8bbe34a89fdb") None.

(** A sealed block whose [previous_hash] is not the sentinel: nonce 1. *)
Definition ex_orphan : Block :=
  mkBlock 0 [] "genesis" (JFloat "1700004958.0") 1
    (Some "0000b173eb8113d20780467fc520551b1fd5defab6c19faf8aba245f15fb811b") None.

(** A block a peer built on the genesis block with index 1, sealed at nonce 1. *)
Definition ex_peer_block : Block :=
  mkBlock 1 [] ex_genesis_hash (JFloat "1700007959.0") 1
    (Some "000017473f2041e29787e9f551effd390f1dc342f44655b5329411019d05c994") None.


(** [Block(1, [], "0")] as constructed. *)
Definition ex_candidate : Block :=
  Block_init ex_import_time 1 [] "0" None None None.

(** The sealed genesis block after a caller assigned [index = 5]. *)
Definition ex_stale : Block :=
  mkBlock 5 [] "0" ex_import_time 2 (Some ex_genesis_hash) None.

(** * Properties *)

Arguments compute_hash : simpl never.
Arguments is_valid_proof : simpl never.
Arguments zeros : simpl never.

(** ** The digest reads five fields only *)

Lemma compute_hash_fields (b b' : Block) :
  index b = index b' -> content b = content b' ->
  previous_hash b = previous_hash b' -> timestamp b = timestamp b' ->
  nonce b = nonce b' ->
  compute_hash b = compute_hash b'.
Proof.
  intros Hi Hc Hp Ht Hn. unfold compute_hash, info.
  now rewrite Hi, Hc, Hp, Ht, Hn.
Qed.

Lemma compute_hash_set_hashcode (h : option string) (b : Block) :
  compute_hash (set_hashcode h b) = compute_hash b.
Proof. now apply compute_hash_fields. Qed.

Lemma set_hashcode_same (b : Block) (h : string) :
  hashcode b = Some h -> set_hashcode (Some h) b = b.
Proof. destruct b; simpl; intros ->; reflexivity. Qed.

(** ** Strings of zeros *)

Lemma prefix_repeat_le (c : ascii) (m n : nat) (s : string) :
  (m <= n)%nat ->
  String.prefix (str_repeat c n) s = true ->
  String.prefix (str_repeat c m) s = true.
Proof.
  revert n s. induction m as [|m IH]; intros n s Hle H;
    [destruct s; reflexivity|].
  destruct n as [|n]; [lia|].
  destruct s as [|a s]; simpl in *; [discriminate|].
  destruct (ascii_dec c a); [|discriminate].
  apply (IH n); [lia | assumption].
Qed.

Lemma startswith_zeros_le (d d' : Z) (h : string) :
  d <= d' ->
  startswith h (zeros d') = true -> startswith h (zeros d) = true.
Proof.
  unfold startswith, zeros. intro Hle.
  apply prefix_repeat_le. lia.
Qed.

(** ** The search loop *)

Ltac pow_step H :=
  simpl in H;
  match type of H with
  | context [hashcode ?b] => destruct (hashcode b) eqn:?
  end;
  [ match type of H with
    | context [startswith ?h ?z] => destruct (startswith h z) eqn:?
    end; simpl in H
  | ].

(** The loop changes [nonce] and [hashcode] and nothing else. *)
Lemma proof_of_work_frame (fuel : nat) :
  forall b d r b',
    proof_of_work fuel b d = Some (r, b') ->
    index b' = index b /\ content b' = content b /\
    previous_hash b' = previous_hash b /\ timestamp b' = timestamp b /\
    this_hash b' = this_hash b /\ nonce b <= nonce b'.
Proof.
  induction fuel as [|fuel IH]; intros b d r b' H; [discriminate|].
  pow_step H.
  - injection H as <- <-. repeat split; lia.
  - apply IH in H. simpl in H. intuition lia.
  - injection H as <- <-. repeat split; lia.
Qed.

(** When the loop ends normally the stored hash meets the predicate, and it
    is the digest of the fields if it was so on entry. *)
Lemma proof_of_work_sealed (fuel : nat) :
  forall b d b',
    proof_of_work fuel b d = Some (Return tt, b') ->
    exists h, hashcode b' = Some h /\ startswith h (zeros d) = true /\
              (hashcode b = Some (compute_hash b) -> h = compute_hash b').
Proof.
  induction fuel as [|fuel IH]; intros b d b' H; [discriminate|].
  pow_step H.
  - injection H as <-. exists s. repeat split; try assumption. congruence.
  - apply IH in H. destruct H as (h & Hh & Hz & Hc).
    exists h. repeat split; try assumption.
    intros _. apply Hc. simpl. now rewrite compute_hash_set_hashcode.
  - discriminate.
Qed.

(** More fuel does not change an answer. *)
Lemma proof_of_work_more_fuel (fuel : nat) :
  forall fuel' b d res,
    proof_of_work fuel b d = Some res -> (fuel <= fuel')%nat ->
    proof_of_work fuel' b d = Some res.
Proof.
  induction fuel as [|fuel IH]; intros fuel' b d res H Hle; [discriminate|].
  destruct fuel' as [|fuel']; [lia|].
  simpl in *. destruct (hashcode b); [|assumption].
  destruct (startswith s (zeros d)); simpl in *; [assumption|].
  apply IH; [assumption | lia].
Qed.

(** The loop ends as soon as the fuel covers a solving nonce. *)
Lemma proof_of_work_terminates (k : nat) :
  forall b d,
    hashcode b = Some (compute_hash b) ->
    solves d b (nonce b + Z.of_nat k) ->
    exists b', proof_of_work (S k) b d = Some (Return tt, b').
Proof.
  unfold solves. induction k as [|k IH]; intros b d Hc Hs.
  - cbn [proof_of_work]. rewrite Hc.
    replace (compute_hash (set_nonce (nonce b + Z.of_nat 0) b))
      with (compute_hash b) in Hs
      by (apply compute_hash_fields; try reflexivity; cbn [nonce set_nonce]; lia).
    rewrite Hs. now exists b.
  - cbn [proof_of_work]. rewrite Hc.
    destruct (startswith (compute_hash b) (zeros d)); cbn [negb]; [now exists b|].
    apply IH.
    + cbn [hashcode set_hashcode]. now rewrite compute_hash_set_hashcode.
    + replace (compute_hash (set_nonce (nonce b + Z.of_nat (S k)) b))
        with (compute_hash
                (set_nonce
                   (nonce (set_hashcode
                             (Some (compute_hash (set_nonce (nonce b + 1) b)))
                             (set_nonce (nonce b + 1) b)) + Z.of_nat k)
                   (set_hashcode
                      (Some (compute_hash (set_nonce (nonce b + 1) b)))
                      (set_nonce (nonce b + 1) b)))) in Hs
        by (apply compute_hash_fields; try reflexivity;
            cbn [nonce set_nonce set_hashcode]; lia).
      exact Hs.
Qed.

Lemma is_valid_proof_iff (block : Block) (block_hash : string) :
  is_valid_proof block block_hash = true <->
  startswith block_hash (zeros difficulty) = true /\
  block_hash = compute_hash block.
Proof.
  unfold is_valid_proof. now rewrite andb_true_iff, String.eqb_eq.
Qed.

(** The blocks of the run are what the constructor and the search give. *)
Example ex_blocks_built :
  BlockChain_init ex_import_time 3 = Some (Return tt, ex_ledger) /\
  proof_of_work 4
    (Block_init ex_import_time 7 [] ex_genesis_hash
       (Some (JFloat "1700006168.25")) None None) difficulty
  = Some (Return tt, ex_foreign) /\
  proof_of_work 2
    (Block_init ex_import_time 1 [] ex_genesis_hash
       (Some (JFloat "1700007959.0")) None None) difficulty
  = Some (Return tt, ex_peer_block) /\
  proof_of_work 2
    (Block_init ex_import_time 0 [] "genesis"
       (Some (JFloat "1700004958.0")) None None) difficulty
  = Some (Return tt, ex_orphan).
Proof. vm_compute. repeat split. Qed.

(** ** The constructor *)

(** C10: whatever [nonce] and [hashcode] the caller passes, the constructed
    block has nonce 0 and the digest of its own fields as stored hash, and is
    the block built without these two arguments; so no call of the
    constructor yields a block with a non-zero nonce or with a stored hash
    other than the digest at nonce 0. *)
Theorem Block_init_ignores_nonce_and_hashcode :
  forall (import_time : json) (i : Z) (c : list json) (p : string)
         (t : option json) (n : option Z) (h : option string),
    let b := Block_init import_time i c p t n h in
    nonce b = 0 /\
    hashcode b = Some (compute_hash b) /\
    b = Block_init import_time i c p t None None /\
    (forall peer : Block,
        nonce peer <> 0 \/
        hashcode peer <> Some (compute_hash (set_nonce 0 peer)) ->
        b <> peer).
Proof.
  intros import_time i c p t n h b.
  assert (Hn : nonce b = 0) by reflexivity.
  assert (Hh : hashcode b = Some (compute_hash b)).
  { subst b. unfold Block_init. cbn [hashcode set_hashcode].
    now rewrite compute_hash_set_hashcode. }
  repeat split; try assumption.
  intros peer Hpeer Heq. rewrite <- Heq in Hpeer.
  destruct Hpeer as [H | H]; [now apply H|].
  apply H. rewrite Hh. f_equal.
Qed.

(** C9: a block built without a [timestamp] argument carries the value
    [time.time()] had when the module was imported, not the moment of its
    construction: any two such blocks have the same timestamp, and it is the
    timestamp the specification's constructor gives only for a call made at
    the import time itself.  Sealing leaves the timestamp as it is. *)
Theorem Block_default_timestamp_is_import_time :
  forall (import_time : json) (i1 i2 : Z) (c1 c2 : list json) (p1 p2 : string),
    timestamp (Block_init import_time i1 c1 p1 None None None) = import_time /\
    timestamp (Block_init import_time i2 c2 p2 None None None)
    = timestamp (Block_init import_time i1 c1 p1 None None None) /\
    (forall now : json,
        timestamp (Block_init import_time i1 c1 p1 None None None)
        = timestamp (construct_spec now i1 c1 p1 None) <->
        now = import_time) /\
    (forall fuel b d r b',
        proof_of_work fuel b d = Some (r, b') -> timestamp b' = timestamp b).
Proof.
  intros. split; [reflexivity|]. split; [reflexivity|]. split.
  - intro now. cbn [Block_init construct_spec timestamp set_hashcode].
    split; congruence.
  - intros fuel b d r b' H. now apply proof_of_work_frame in H.
Qed.

(** The blocks [mine] builds for the two ledgers of the run, one after the
    other, both carry the import time. *)
Example Block_default_timestamp_run :
  BlockChain_init ex_import_time 3 = Some (Return tt, ex_ledger) /\
  mine ex_import_time 2 ex_pending = Some (Return (MinedIndex 1), ex_mined) /\
  map timestamp (chain ex_mined) = [ex_import_time; ex_import_time].
Proof. vm_compute. repeat split. Qed.

(** ** Sealing and verifying *)

(** C2, as amended: for a block whose stored hash is the digest of its
    fields, when the search ends the stored hash starts with [d] zeros and is
    the digest of the block's fields; [is_valid_proof] holds of a claimed
    hash exactly when it starts with [BlockChain.difficulty] zeros and is the
    recomputed digest, so it holds of the sealed block when [d] is at least
    that difficulty. *)
Theorem proof_of_work_seals :
  forall (fuel : nat) (b : Block) (d : Z) (b' : Block),
    hashcode b = Some (compute_hash b) ->
    proof_of_work fuel b d = Some (Return tt, b') ->
    exists h,
      hashcode b' = Some h /\
      startswith h (zeros d) = true /\
      h = compute_hash b' /\
      (forall claimed,
          is_valid_proof b' claimed = true <->
          startswith claimed (zeros difficulty) = true /\
          claimed = compute_hash b') /\
      (difficulty <= d -> is_valid_proof b' h = true).
Proof.
  intros fuel b d b' Hc H.
  destruct (proof_of_work_sealed _ _ _ _ H) as (h & Hh & Hz & Heq).
  specialize (Heq Hc). exists h.
  split; [assumption|]. split; [assumption|]. split; [assumption|]. split.
  - intro claimed. apply is_valid_proof_iff.
  - intro Hd. apply is_valid_proof_iff. split; [|assumption].
    now apply (startswith_zeros_le difficulty d).
Qed.

Lemma proof_of_work_seals_witness :
  exists h,
    hashcode ex_genesis = Some h /\
    startswith h (zeros difficulty) = true /\
    h = compute_hash ex_genesis /\
    (forall claimed,
        is_valid_proof ex_genesis claimed = true <->
        startswith claimed (zeros difficulty) = true /\
        claimed = compute_hash ex_genesis) /\
    (difficulty <= difficulty -> is_valid_proof ex_genesis h = true).
Proof.
  apply (proof_of_work_seals 3
           (Block_init ex_import_time 0 [] "0" None None None)
           difficulty ex_genesis).
  - vm_compute. reflexivity.
  - vm_compute. reflexivity.
Defined.

(** C2 as stated fails.  At difficulty 0 the search on the fresh block
    [Block(1, [], "0")] ends at once, the stored hash is the digest of the
    fields, and [is_valid_proof] rejects it.  On a block whose stored hash is
    stale the search at [BlockChain.difficulty] ends at once and leaves a
    hash that is not the digest of the fields. *)
Lemma proof_of_work_seals_counterexample :
  (proof_of_work 1 ex_candidate 0 = Some (Return tt, ex_candidate) /\
   hashcode ex_candidate
   = Some "6e0e3407f04b395370f22792a13e05c05a6543d5aab7c9be1ad47d57310f65cf" /\
   compute_hash ex_candidate
   = "6e0e3407f04b395370f22792a13e05c05a6543d5aab7c9be1ad47d57310f65cf" /\
   startswith "6e0e3407f04b395370f22792a13e05c05a6543d5aab7c9be1ad47d57310f65cf"
     (zeros 0) = true /\
   is_valid_proof ex_candidate
     "6e0e3407f04b395370f22792a13e05c05a6543d5aab7c9be1ad47d57310f65cf" = false)
  /\
  (proof_of_work 1 ex_stale difficulty = Some (Return tt, ex_stale) /\
   hashcode ex_stale = Some ex_genesis_hash /\
   compute_hash ex_stale
   = "2b20724556a8d07037c428054cbb6abf6322a90c5b33cfdc8c7c1447e59b1a4c").
Proof. vm_compute. repeat split. Qed.

(** ** Accepting a block *)

Lemma Block_init_consistent (import_time : json) (i : Z) (c : list json)
    (p : string) (t : option json) (n : option Z) (h : option string) :
  hashcode (Block_init import_time i c p t n h)
  = Some (compute_hash (Block_init import_time i c p t n h)).
Proof.
  unfold Block_init. cbn [hashcode set_hashcode].
  now rewrite compute_hash_set_hashcode.
Qed.

Lemma last_block_app (self : BlockChain) (b : Block) :
  last_block (set_chain (chain self ++ [b]) self) = Return b.
Proof.
  unfold last_block. cbn [chain set_chain]. now rewrite rev_app_distr.
Qed.

Lemma last_block_in_chain (self : BlockChain) (last : Block) :
  last_block self = Return last ->
  exists front, chain self = front ++ [last].
Proof.
  unfold last_block. intro H.
  destruct (rev (chain self)) as [|b tl] eqn:E; [discriminate|].
  injection H as ->. exists (rev tl).
  rewrite <- (rev_involutive (chain self)), E. reflexivity.
Qed.

Lemma last_block_nonempty (self : BlockChain) :
  chain self <> [] -> exists last, last_block self = Return last.
Proof.
  unfold last_block. intro H.
  destruct (rev (chain self)) as [|b tl] eqn:E; [|now exists b].
  exfalso. apply H. rewrite <- (rev_involutive (chain self)), E. reflexivity.
Qed.

(** C3: with [h] the hash of the current last block, [add_block] answers
    [False] and leaves the ledger as it is when the block's [previous_hash]
    differs from [h], whatever the proof, and when [is_valid_proof] fails;
    when both checks pass it appends the block and answers [True]. *)
Theorem add_block_admission :
  forall (self : BlockChain) (block : Block) (proof : string)
         (last : Block) (h : string),
    last_block self = Return last ->
    hashcode last = Some h ->
    (previous_hash block <> h ->
       add_block self block proof = (Return false, self)) /\
    (is_valid_proof block proof = false ->
       add_block self block proof = (Return false, self)) /\
    (previous_hash block = h -> is_valid_proof block proof = true ->
       add_block self block proof
       = (Return true,
          set_chain (chain self ++ [set_hashcode (Some proof) block]) self)).
Proof.
  intros self block proof last h Hlast Hh.
  unfold add_block. rewrite Hlast, Hh.
  destruct (String.eqb h (previous_hash block)) eqn:E; cbn [negb].
  - apply String.eqb_eq in E. split; [|split].
    + congruence.
    + now intros ->.
    + now intros _ ->.
  - apply String.eqb_neq in E. split; [|split].
    + reflexivity.
    + reflexivity.
    + congruence.
Qed.

Lemma add_block_admission_witness :
  (previous_hash ex_peer_block <> ex_genesis_hash ->
     add_block ex_ledger ex_peer_block
       "000017473f2041e29787e9f551effd390f1dc342f44655b5329411019d05c994"
     = (Return false, ex_ledger)) /\
  (is_valid_proof ex_peer_block
     "000017473f2041e29787e9f551effd390f1dc342f44655b5329411019d05c994" = false ->
     add_block ex_ledger ex_peer_block
       "000017473f2041e29787e9f551effd390f1dc342f44655b5329411019d05c994"
     = (Return false, ex_ledger)) /\
  (previous_hash ex_peer_block = ex_genesis_hash ->
   is_valid_proof ex_peer_block
     "000017473f2041e29787e9f551effd390f1dc342f44655b5329411019d05c994" = true ->
     add_block ex_ledger ex_peer_block
       "000017473f2041e29787e9f551effd390f1dc342f44655b5329411019d05c994"
     = (Return true,
        set_chain
          (chain ex_ledger
           ++ [set_hashcode
                 (Some "000017473f2041e29787e9f551effd390f1dc342f44655b5329411019d05c994")
                 ex_peer_block]) ex_ledger)).
Proof.
  apply (add_block_admission ex_ledger ex_peer_block
           "000017473f2041e29787e9f551effd390f1dc342f44655b5329411019d05c994"
           ex_genesis ex_genesis_hash).
  - reflexivity.
  - reflexivity.
Defined.

(** The three outcomes on the ledger of the run: a sealed block on the
    genesis block is appended; the same block on a ledger that has advanced
    is turned down although its proof is valid; a block with a proof that
    does not verify is turned down. *)
Example add_block_run :
  add_block ex_ledger ex_peer_block
    "000017473f2041e29787e9f551effd390f1dc342f44655b5329411019d05c994"
  = (Return true, mkBlockChain [] [ex_genesis; ex_peer_block]) /\
  add_block ex_mined ex_peer_block
    "000017473f2041e29787e9f551effd390f1dc342f44655b5329411019d05c994"
  = (Return false, ex_mined) /\
  add_block ex_ledger ex_peer_block
    "0000bbe5cd24c130c375aee0eddd252cfc7433b8285c890219db8bbe34a89fdb"
  = (Return false, ex_ledger).
Proof. vm_compute. repeat split. Qed.

(** ** Mining *)

(** C8: with nothing pending, [mine] answers [False], not an exception, and
    the ledger (chain and pending buffer) is as before. *)
Theorem mine_nothing_to_mine :
  forall (import_time : json) (fuel : nat) (self : BlockChain),
    unconfirmed_data self = [] ->
    chain self <> [] ->
    mine import_time fuel self = Some (Return MinedFalse, self).
Proof.
  intros import_time fuel self Hp Hc.
  destruct (last_block_nonempty self Hc) as (last & Hlast).
  unfold mine. now rewrite Hlast, Hp.
Qed.

Lemma mine_nothing_to_mine_witness :
  mine ex_import_time 0 ex_ledger = Some (Return MinedFalse, ex_ledger).
Proof.
  apply (mine_nothing_to_mine ex_import_time 0 ex_ledger).
  - reflexivity.
  - discriminate.
Defined.

(** What [mine] does once the search on its candidate has ended. *)
Lemma mine_sealed_candidate (import_time : json) (fuel : nat)
    (self : BlockChain) (last new_block : Block) (h : string) :
  unconfirmed_data self <> [] ->
  last_block self = Return last ->
  hashcode last = Some h ->
  proof_of_work fuel
    (Block_init import_time (index last + 1) (unconfirmed_data self) h
       None None None) difficulty
  = Some (Return tt, new_block) ->
  mine import_time fuel self
  = Some (Return (MinedIndex (index last + 1)),
          mkBlockChain [] (chain self ++ [new_block]))
  /\ index new_block = index last + 1
  /\ content new_block = unconfirmed_data self
  /\ previous_hash new_block = h
  /\ sealed new_block = true.
Proof.
  intros Hp Hlast Hh Hpow.
  pose proof (proof_of_work_frame _ _ _ _ _ Hpow) as (Hi & Hc & Hph & _).
  cbn [Block_init index content previous_hash set_hashcode] in Hi, Hc, Hph.
  destruct (proof_of_work_sealed _ _ _ _ Hpow) as (proof & Hproof & Hz & Heq).
  specialize (Heq (Block_init_consistent _ _ _ _ _ _ _)).
  assert (Hv : is_valid_proof new_block proof = true)
    by now apply is_valid_proof_iff.
  assert (Hs : sealed new_block = true) by (unfold sealed; now rewrite Hproof).
  split; [|now repeat split].
  unfold mine. rewrite Hlast.
  destruct (unconfirmed_data self) as [|r rs] eqn:E; [now elim Hp|].
  rewrite Hh, Hpow, Hproof.
  unfold add_block. rewrite Hlast, Hh, Hph, String.eqb_refl, Hv. cbn [negb].
  rewrite (set_hashcode_same _ _ Hproof).
  unfold set_unconfirmed_data. cbn [chain set_chain unconfirmed_data].
  unfold last_block. cbn [chain]. rewrite rev_app_distr. cbn [rev app].
  now rewrite Hi.
Qed.

(** C5: on a ledger with pending records, whose last block carries the hash
    [h], when some nonce [k] solves the puzzle of the candidate, [mine] with
    fuel beyond [k] answers the new block's index, the last index plus one;
    the chain has grown by the sealed candidate alone, whose payload is the
    pending records in order and whose [previous_hash] is [h]; the pending
    buffer is empty. *)
Theorem mine_appends_pending :
  forall (import_time : json) (self : BlockChain) (last : Block)
         (h : string) (k : nat),
    unconfirmed_data self <> [] ->
    last_block self = Return last ->
    hashcode last = Some h ->
    solves difficulty
      (Block_init import_time (index last + 1) (unconfirmed_data self) h
         None None None) (Z.of_nat k) ->
    exists new_block,
      (forall fuel, (k < fuel)%nat ->
         mine import_time fuel self
         = Some (Return (MinedIndex (index new_block)),
                 mkBlockChain [] (chain self ++ [new_block]))) /\
      List.length (chain self ++ [new_block]) = S (List.length (chain self)) /\
      index new_block = index last + 1 /\
      content new_block = unconfirmed_data self /\
      previous_hash new_block = h /\
      sealed new_block = true.
Proof.
  intros import_time self last h k Hp Hlast Hh Hk.
  destruct (proof_of_work_terminates k _ difficulty
              (Block_init_consistent _ _ _ _ _ _ _) Hk) as (new_block & Hpow).
  exists new_block.
  destruct (mine_sealed_candidate _ _ _ _ _ _ Hp Hlast Hh Hpow)
    as (_ & Hi & Hc & Hph & Hs).
  split; [|split; [|now repeat split]].
  - intros fuel Hfuel.
    assert (Hpow' := proof_of_work_more_fuel _ fuel _ _ _ Hpow Hfuel).
    rewrite Hi.
    now destruct (mine_sealed_candidate _ _ _ _ _ _ Hp Hlast Hh Hpow').
  - rewrite length_app. simpl. lia.
Qed.

Lemma mine_appends_pending_witness :
  exists new_block,
    (forall fuel, (1 < fuel)%nat ->
       mine ex_import_time fuel ex_pending
       = Some (Return (MinedIndex (index new_block)),
               mkBlockChain [] (chain ex_pending ++ [new_block]))) /\
    List.length (chain ex_pending ++ [new_block])
    = S (List.length (chain ex_pending)) /\
    index new_block = index ex_genesis + 1 /\
    content new_block = unconfirmed_data ex_pending /\
    previous_hash new_block = ex_genesis_hash /\
    sealed new_block = true.
Proof.
  apply (mine_appends_pending ex_import_time ex_pending ex_genesis
           ex_genesis_hash 1).
  - discriminate.
  - reflexivity.
  - reflexivity.
  - vm_compute. reflexivity.
Defined.

(** The scenario of the specification: two records are submitted to the
    fresh ledger and mined; the ledger has two blocks, the new one holds the
    two records in submission order, and nothing is pending. *)
Example mine_run :
  BlockChain_init ex_import_time 3 = Some (Return tt, ex_ledger) /\
  mine ex_import_time 2 (add_data (add_data ex_ledger ex_record1) ex_record2)
  = Some (Return (MinedIndex 1), ex_mined) /\
  map content (chain ex_mined) = [[]; [ex_record1; ex_record2]] /\
  unconfirmed_data ex_mined = [].
Proof. vm_compute. repeat split. Qed.

(** ** The index invariant *)

Lemma indexed_app (blocks : list Block) (b : Block) :
  indexed blocks ->
  index b = Z.of_nat (List.length blocks) ->
  indexed (blocks ++ [b]).
Proof.
  intros Hind Hb i b' Hnth.
  destruct (Nat.lt_ge_cases i (List.length blocks)) as [Hlt | Hge].
  - rewrite nth_error_app1 in Hnth by assumption. now apply Hind.
  - rewrite nth_error_app2 in Hnth by assumption.
    destruct (i - List.length blocks)%nat as [|j] eqn:E.
    + injection Hnth as <-. rewrite Hb. f_equal. lia.
    + destruct j; discriminate.
Qed.

Lemma indexed_last (front : list Block) (last : Block) :
  indexed (front ++ [last]) -> index last = Z.of_nat (List.length front).
Proof.
  intro H. apply H. rewrite nth_error_app2 by lia.
  now rewrite Nat.sub_diag.
Qed.

(** [add_block] leaves the chain as it is or appends the block it was given. *)
Lemma add_block_chain (self : BlockChain) (block : Block) (proof : string) :
  unconfirmed_data (snd (add_block self block proof)) = unconfirmed_data self /\
  (chain (snd (add_block self block proof)) = chain self \/
   chain (snd (add_block self block proof))
   = chain self ++ [set_hashcode (Some proof) block]).
Proof.
  unfold add_block.
  destruct (last_block self) as [last|e]; [|now split; [|left]].
  destruct (hashcode last) as [h|]; [|now split; [|left]].
  destruct (negb (String.eqb h (previous_hash block))); [now split; [|left]|].
  destruct (negb (is_valid_proof block proof)); [now split; [|left]|].
  split; [reflexivity | now right].
Qed.

(** [mine] leaves the chain as it is or appends a block whose index is the
    last index plus one. *)
Lemma mine_chain (import_time : json) (fuel : nat) (self self' : BlockChain)
    (r : answer mined) :
  mine import_time fuel self = Some (r, self') ->
  chain self' = chain self \/
  exists last new_block,
    last_block self = Return last /\
    index new_block = index last + 1 /\
    has_hashcode new_block = true /\
    chain self' = chain self ++ [new_block].
Proof.
  unfold mine. intro H.
  destruct (last_block self) as [last|e] eqn:Hlast;
    [|injection H as <- <-; now left].
  destruct (unconfirmed_data self) as [|d ds] eqn:Hd;
    [injection H as <- <-; now left|].
  destruct (hashcode last) as [h|]; [|injection H as <- <-; now left].
  match type of H with
  | context [proof_of_work fuel ?b difficulty] =>
      destruct (proof_of_work fuel b difficulty) as [[[[]|e] nb]|] eqn:Hpow
  end; [| injection H as <- <-; now left | discriminate].
  apply proof_of_work_frame in Hpow. destruct Hpow as (Hi & _).
  cbn [Block_init index set_hashcode] in Hi.
  destruct (hashcode nb) as [proof|]; [|injection H as <- <-; now left].
  pose proof (add_block_chain self nb proof) as (_ & Hchain).
  destruct (add_block self nb proof) as [[ok|e] self1];
    cbn [snd] in Hchain.
  - assert (Hc : chain self' = chain self1).
    { destruct (last_block (set_unconfirmed_data [] self1));
        injection H as <- <-; reflexivity. }
    rewrite Hc. destruct Hchain as [-> | ->]; [now left|].
    right. exists last, (set_hashcode (Some proof) nb).
    now repeat split.
  - injection H as <- <-. destruct Hchain as [-> | ->]; [now left|].
    right. exists last, (set_hashcode (Some proof) nb). now repeat split.
Qed.

(** The fresh ledger holds one block, of index 0. *)
Lemma BlockChain_init_chain (import_time : json) (fuel : nat)
    (self : BlockChain) :
  BlockChain_init import_time fuel = Some (Return tt, self) ->
  exists genesis,
    chain self = [genesis] /\ index genesis = 0 /\
    has_hashcode genesis = true /\ previous_hash genesis = "0".
Proof.
  unfold BlockChain_init. intro H.
  match type of H with
  | context [proof_of_work fuel ?b difficulty] =>
      destruct (proof_of_work fuel b difficulty) as [[[[]|e] g]|] eqn:Hpow
  end; try discriminate.
  injection H as <-. exists g. split; [reflexivity|].
  pose proof (proof_of_work_frame _ _ _ _ _ Hpow) as (Hi & _ & Hp & _).
  split; [exact Hi|]. split; [|exact Hp].
  apply proof_of_work_sealed in Hpow. destruct Hpow as (h & Hh & _).
  unfold has_hashcode. now rewrite Hh.
Qed.

(** What one operation does to the chain. *)
Lemma run_chain (import_time : json) (fuel : nat) (op : operation)
    (self self' : BlockChain) :
  run import_time fuel op self = Some self' ->
  chain self' = chain self \/
  exists new_block,
    chain self' = chain self ++ [new_block] /\
    has_hashcode new_block = true /\
    (accepts_next_index self op ->
     indexed (chain self) -> chain self <> [] ->
     index new_block = Z.of_nat (List.length (chain self))).
Proof.
  destruct op as [record | | block proof]; cbn [run]; intro H.
  - injection H as <-. now left.
  - destruct (mine import_time fuel self) as [[r s]|] eqn:Hm; [|discriminate].
    injection H as <-. apply mine_chain in Hm.
    destruct Hm as [-> | (last & nb & Hlast & Hi & Hnb & ->)]; [now left|].
    right. exists nb. split; [reflexivity|]. split; [assumption|].
    intros _ Hind _.
    apply last_block_in_chain in Hlast. destruct Hlast as (front & Hfront).
    rewrite Hfront in Hind |- *. rewrite Hi, (indexed_last _ _ Hind).
    rewrite length_app. simpl. lia.
  - injection H as <-.
    destruct (add_block_chain self block proof) as (_ & [-> | ->]);
      [now left|].
    right. eexists. split; [reflexivity|]. split; [reflexivity|].
    intros Hidx _ _. exact Hidx.
Qed.


(** C6, as amended: in every ledger reached from [BlockChain()] by
    [add_data], [mine] and [add_block] the chain is non-empty and starts with
    a block of index 0; when every block handed to [add_block] carries the
    current chain length as its index, [blocks[i].index == i] at every
    position. *)
Theorem reachable_chain_indexed :
  forall (import_time : json) (allowed : BlockChain -> operation -> Prop)
         (self : BlockChain),
    reachable import_time allowed self ->
    chain self <> [] /\
    (exists genesis, nth_error (chain self) 0 = Some genesis /\
                     index genesis = 0) /\
    ((forall s op, allowed s op -> accepts_next_index s op) ->
     indexed (chain self)).
Proof.
  intros import_time allowed self Hreach.
  induction Hreach as [fuel self Hinit | fuel op self self' _ IH Hop Hrun].
  - apply BlockChain_init_chain in Hinit.
    destruct Hinit as (g & -> & Hg & _ & _). split; [discriminate|]. split.
    + now exists g.
    + intros _ i b Hnth. destruct i as [|i]; simpl in Hnth.
      * now injection Hnth as <-.
      * destruct i; discriminate.
  - destruct IH as (Hne & (g & Hg0 & Hgi) & Hind).
    apply run_chain in Hrun.
    destruct Hrun as [-> | (nb & -> & _ & Hnb)]; [now repeat split; eauto|].
    split; [now destruct (chain self)|]. split.
    + exists g. split; [|assumption].
      destruct (chain self); [discriminate | exact Hg0].
    + intro Hall. apply indexed_app; auto.
Qed.

Lemma reachable_chain_indexed_witness :
  chain ex_mined <> [] /\
  (exists genesis, nth_error (chain ex_mined) 0 = Some genesis /\
                   index genesis = 0) /\
  ((forall s op, accepts_next_index s op -> accepts_next_index s op) ->
   indexed (chain ex_mined)).
Proof.
  apply (reachable_chain_indexed ex_import_time accepts_next_index ex_mined).
  apply (reach_step _ _ 2%nat Mine ex_pending); [|exact I|vm_compute; reflexivity].
  apply (reach_step _ _ 0%nat (Submit ex_record2) (add_data ex_ledger ex_record1));
    [|exact I|reflexivity].
  apply (reach_step _ _ 0%nat (Submit ex_record1) ex_ledger);
    [|exact I|reflexivity].
  apply (reach_fresh _ _ 3%nat). vm_compute. reflexivity.
Defined.

(** C6 as stated fails: [add_block] does not look at the index.  On the
    fresh ledger it accepts the sealed block [ex_foreign], whose index is 7,
    and puts it at position 1. *)
Lemma reachable_chain_indexed_counterexample :
  reachable ex_import_time any_operation
    (mkBlockChain [] [ex_genesis; ex_foreign]) /\
  nth_error (chain (mkBlockChain [] [ex_genesis; ex_foreign])) 1
  = Some ex_foreign /\
  index ex_foreign = 7.
Proof.
  split; [|split; reflexivity].
  apply (reach_step _ _ 0%nat
           (Accept ex_foreign
              "0000bbe5cd24c130c375aee0eddd252cfc7433b8285c890219db8bbe34a89fdb")
           ex_ledger); [|exact I|vm_compute; reflexivity].
  apply (reach_fresh _ _ 3%nat). vm_compute. reflexivity.
Qed.

(** ** Validating a sequence of blocks *)

Lemma is_valid_proof_set_hashcode (o : option string) (b : Block) (h : string) :
  is_valid_proof (set_hashcode o b) h = is_valid_proof b h.
Proof. unfold is_valid_proof. now rewrite compute_hash_set_hashcode. Qed.




(** The comparison of [previous_hash] in the loop is inverted: a block whose
    [previous_hash] is the stored hash of the block before it (the sentinel
    for the first block) makes [chain_is_valid] answer [False]. *)
Lemma chain_is_valid_loop_linked (b : Block) (h : string) (rest : list item)
    (previous : string) :
  hashcode b = Some h ->
  previous_hash b = previous ->
  fst (chain_is_valid_loop previous (ItemBlock b :: rest)) = Return false.
Proof.
  intros Hh Hp. cbn [chain_is_valid_loop]. rewrite Hh.
  cbn [previous_hash set_hashcode]. rewrite Hp, String.eqb_refl.
  cbn [negb]. now rewrite orb_true_r.
Qed.

(** So [chain_is_valid] turns down the chain of every ledger reached from
    [BlockChain()]: its first block links to the sentinel. *)
Lemma reachable_chain_rejected (import_time : json)
    (allowed : BlockChain -> operation -> Prop) (self : BlockChain) :
  reachable import_time allowed self ->
  fst (chain_is_valid (map ItemBlock (chain self))) = Return false.
Proof.
  intro Hreach.
  assert (H : exists g rest h, chain self = g :: rest /\
                               hashcode g = Some h /\ previous_hash g = "0").
  { induction Hreach as [fuel self Hinit | fuel op self self' _ IH _ Hrun].
    - apply BlockChain_init_chain in Hinit.
      destruct Hinit as (g & -> & _ & Hg & Hp).
      unfold has_hashcode in Hg. destruct (hashcode g) as [h|] eqn:Hh;
        [|discriminate].
      now exists g, [], h.
    - destruct IH as (g & rest & h & Hc & Hh & Hp). apply run_chain in Hrun.
      destruct Hrun as [-> | (nb & -> & _)]; [now exists g, rest, h|].
      exists g, (rest ++ [nb]), h. now rewrite Hc. }
  destruct H as (g & rest & h & -> & Hh & Hp).
  now apply (chain_is_valid_loop_linked g h).
Qed.

(** The chains of the run, which the specification's validation accepts,
    are turned down by [chain_is_valid]. *)
Example chain_is_valid_run :
  validate_spec (chain ex_ledger) = true /\
  fst (chain_is_valid (map ItemBlock (chain ex_ledger))) = Return false /\
  validate_spec (chain ex_mined) = true /\
  fst (chain_is_valid (map ItemBlock (chain ex_mined))) = Return false.
Proof. vm_compute. repeat split. Qed.

(** C7: a first run of [chain_is_valid] on a sequence that starts with a
    block deletes that block's [hashcode] and does not put it back, so a
    second run on the same sequence raises [AttributeError], whatever the
    first run answered; on [[ex_orphan]] the first run answers [True]. *)
Theorem chain_is_valid_second_run_raises :
  (forall (b : Block) (h : string) (rest : list item),
      fst (chain_is_valid
             (snd (chain_is_valid (ItemBlock (set_hashcode (Some h) b) :: rest))))
      = Raise AttributeError) /\
  fst (chain_is_valid [ItemBlock ex_orphan]) = Return true /\
  fst (chain_is_valid (snd (chain_is_valid [ItemBlock ex_orphan])))
  = Raise AttributeError.
Proof.
  split; [|vm_compute; split; reflexivity].
  intros b h rest. unfold chain_is_valid.
  cbn [chain_is_valid_loop hashcode set_hashcode].
  match goal with
  | |- context [if ?c then _ else _] => destruct c
  end.
  - reflexivity.
  - destruct (chain_is_valid_loop h rest) as [r rest']. reflexivity.
Qed.

(** ** Resolving against the peers *)

(** On a peer's answer, whose elements are decoded JSON values and not
    [Block] objects, [chain_is_valid] raises unless the list is empty. *)
Lemma chain_is_valid_json (l : list json) :
  fst (chain_is_valid (map ItemJson l))
  = match l with [] => Return true | _ :: _ => Raise AttributeError end.
Proof. now destruct l. Qed.

Lemma consensus_loop_never_selects (responses : list response) :
  forall (longest_chain : option (list json)) (max_len : Z),
    longest_chain = None \/ longest_chain = Some [] ->
    consensus_loop responses longest_chain max_len = Raise AttributeError \/
    consensus_loop responses longest_chain max_len = Return None \/
    consensus_loop responses longest_chain max_len = Return (Some []).
Proof.
  induction responses as [|r rest IH]; intros longest_chain max_len H.
  - cbn [consensus_loop]. destruct H as [-> | ->]; auto.
  - cbn [consensus_loop]. destruct (max_len <? resp_length r); [|now apply IH].
    rewrite chain_is_valid_json.
    destruct (resp_chain r) as [|j l]; [|now left].
    apply IH. now right.
Qed.

(** The first peer that reports a longer chain and sends a non-empty one
    makes [consensus] raise. *)
Lemma consensus_raises (bc : BlockChain) (r : response) (rest : list response) :
  Z.of_nat (List.length (chain bc)) < resp_length r ->
  resp_chain r <> [] ->
  consensus (GBlockChain bc) (r :: rest) = (Raise AttributeError, GBlockChain bc).
Proof.
  intros Hlen Hne. cbn [consensus consensus_loop].
  apply Z.ltb_lt in Hlen. rewrite Hlen, chain_is_valid_json.
  now destruct (resp_chain r).
Qed.

(** C4: [consensus] never replaces the local ledger: it answers [False] or
    raises [AttributeError], and [blockchain] stays bound to the local
    ledger.  With the fresh ledger of the run as local ledger and one peer
    that answers with the two-block ledger [ex_mined], it raises. *)
Theorem consensus_never_replaces :
  (forall (bc : BlockChain) (responses : list response),
      snd (consensus (GBlockChain bc) responses) = GBlockChain bc /\
      (fst (consensus (GBlockChain bc) responses) = Return false \/
       fst (consensus (GBlockChain bc) responses) = Raise AttributeError)) /\
  resp_length (get_chain ex_mined) = 2 /\
  validate_spec (chain ex_mined) = true /\
  consensus (GBlockChain ex_ledger) [get_chain ex_mined]
  = (Raise AttributeError, GBlockChain ex_ledger).
Proof.
  split; [|vm_compute; repeat split].
  intros bc responses. cbn [consensus].
  destruct (consensus_loop_never_selects responses None
              (Z.of_nat (List.length (chain bc))) (or_introl eq_refl))
    as [-> | [-> | ->]]; cbn [fst snd]; auto.
Qed.

(** * Further properties of the ledger *)

(** ** The nonce the search stops at *)

Lemma set_hashcode_set_nonce (n : Z) (b b' : Block) :
  index b = index b' -> content b = content b' ->
  previous_hash b = previous_hash b' -> timestamp b = timestamp b' ->
  this_hash b = this_hash b' ->
  set_hashcode (Some (compute_hash (set_nonce n b))) (set_nonce n b)
  = set_hashcode (Some (compute_hash (set_nonce n b'))) (set_nonce n b').
Proof.
  intros Hi Hc Hp Ht Hh. unfold set_hashcode, set_nonce.
  cbn [index content previous_hash timestamp nonce this_hash].
  now rewrite Hi, Hc, Hp, Ht, Hh.
Qed.

Lemma set_hashcode_set_nonce_same (b : Block) :
  hashcode b = Some (compute_hash b) ->
  set_hashcode (Some (compute_hash (set_nonce (nonce b) b))) (set_nonce (nonce b) b)
  = b.
Proof.
  intro Hc. replace (compute_hash (set_nonce (nonce b) b)) with (compute_hash b)
    by now apply compute_hash_fields.
  rewrite <- Hc. now destruct b.
Qed.

(** [proof_of_work] returns the block with the least nonce, from the
    block's own nonce upwards, whose digest starts with [d] zeros, and with
    that digest as stored hash: no smaller nonce solves the puzzle, and no
    other field is touched. *)
Theorem proof_of_work_least_nonce :
  forall (fuel : nat) (b : Block) (d : Z) (b' : Block),
    hashcode b = Some (compute_hash b) ->
    proof_of_work fuel b d = Some (Return tt, b') ->
    nonce b <= nonce b' /\
    solves d b (nonce b') /\
    (forall n, nonce b <= n < nonce b' ->
               startswith (compute_hash (set_nonce n b)) (zeros d) = false) /\
    b' = set_hashcode (Some (compute_hash (set_nonce (nonce b') b)))
           (set_nonce (nonce b') b).
Proof.
  unfold solves.
  induction fuel as [|fuel IH]; intros b d b' Hc H; [discriminate|].
  cbn [proof_of_work] in H. rewrite Hc in H.
  destruct (startswith (compute_hash b) (zeros d)) eqn:Hz; cbn [negb] in H.
  - injection H as <-. split; [lia|]. split; [|split].
    + replace (compute_hash (set_nonce (nonce b) b)) with (compute_hash b)
        by now apply compute_hash_fields.
      exact Hz.
    + intros n Hn. lia.
    + symmetry. now apply set_hashcode_set_nonce_same.
  - apply IH in H;
      [|cbn [hashcode set_hashcode]; now rewrite compute_hash_set_hashcode].
    cbn [nonce set_hashcode set_nonce] in H.
    destruct H as (Hle & Hs & Hmin & Heq).
    split; [lia|]. split; [|split].
    + rewrite <- Hs. f_equal; now apply compute_hash_fields.
    + intros n Hn. destruct (Z.eq_dec n (nonce b)) as [-> | Hne].
      * replace (compute_hash (set_nonce (nonce b) b)) with (compute_hash b)
          by now apply compute_hash_fields.
        exact Hz.
      * rewrite <- (Hmin n) by lia. f_equal; now apply compute_hash_fields.
    + rewrite Heq at 1. now apply set_hashcode_set_nonce.
Qed.

Lemma proof_of_work_least_nonce_witness :
  nonce (Block_init ex_import_time 7 [] ex_genesis_hash
           (Some (JFloat "1700006168.25")) None None) <= nonce ex_foreign /\
  solves difficulty
    (Block_init ex_import_time 7 [] ex_genesis_hash
       (Some (JFloat "1700006168.25")) None None) (nonce ex_foreign) /\
  (forall n,
      nonce (Block_init ex_import_time 7 [] ex_genesis_hash
               (Some (JFloat "1700006168.25")) None None) <= n
      < nonce ex_foreign ->
      startswith
        (compute_hash
           (set_nonce n
              (Block_init ex_import_time 7 [] ex_genesis_hash
                 (Some (JFloat "1700006168.25")) None None)))
        (zeros difficulty) = false) /\
  ex_foreign
  = set_hashcode
      (Some (compute_hash
               (set_nonce (nonce ex_foreign)
                  (Block_init ex_import_time 7 [] ex_genesis_hash
                     (Some (JFloat "1700006168.25")) None None))))
      (set_nonce (nonce ex_foreign)
         (Block_init ex_import_time 7 [] ex_genesis_hash
            (Some (JFloat "1700006168.25")) None None)).
Proof.
  apply (proof_of_work_least_nonce 4
           (Block_init ex_import_time 7 [] ex_genesis_hash
              (Some (JFloat "1700006168.25")) None None)
           difficulty ex_foreign).
  - apply Block_init_consistent.
  - vm_compute. reflexivity.
Defined.

(** ** Difficulties the search cannot meet *)

Lemma hex_string_length (bytes : list Z) :
  String.length (fold_right Sha256.hex_byte EmptyString bytes)
  = (2 * List.length bytes)%nat.
Proof.
  induction bytes as [|x bytes IH]; [reflexivity|].
  cbn [fold_right List.length]. unfold Sha256.hex_byte at 1.
  cbn [String.length]. rewrite IH. lia.
Qed.

Lemma be_bytes_length (n : nat) (x : Z) :
  List.length (Sha256.be_bytes n x) = n.
Proof. induction n as [|n IH]; [reflexivity|]. cbn [Sha256.be_bytes List.length]. now rewrite IH. Qed.

Lemma flat_map_be_bytes_length (ws : list Z) :
  List.length (flat_map (Sha256.be_bytes 4) ws) = (4 * List.length ws)%nat.
Proof.
  induction ws as [|w ws IH]; [reflexivity|].
  cbn [flat_map]. rewrite length_app, be_bytes_length, IH.
  cbn [List.length]. lia.
Qed.

(** A digest is 64 characters long. *)
Lemma compute_hash_length (b : Block) : String.length (compute_hash b) = 64%nat.
Proof.
  unfold compute_hash, Sha256.hexdigest.
  rewrite hex_string_length, flat_map_be_bytes_length.
  reflexivity.
Qed.

Lemma prefix_length (p s : string) :
  String.prefix p s = true -> (String.length p <= String.length s)%nat.
Proof.
  revert p. induction s as [|a s IH]; intros p H.
  - destruct p; [cbn; lia | discriminate].
  - destruct p as [|c p]; [cbn; lia|].
    cbn in H. destruct (ascii_dec c a); [|discriminate].
    apply IH in H. cbn. lia.
Qed.

Lemma str_repeat_length (c : ascii) (n : nat) :
  String.length (str_repeat c n) = n.
Proof. induction n as [|n IH]; [reflexivity|]. cbn. now rewrite IH. Qed.

Lemma proof_of_work_too_difficult (fuel : nat) :
  forall (b : Block) (h : string) (d : Z),
    64 < d -> hashcode b = Some h -> String.length h = 64%nat ->
    proof_of_work fuel b d = None.
Proof.
  induction fuel as [|fuel IH]; intros b h d Hd Hh Hlen; [reflexivity|].
  cbn [proof_of_work]. rewrite Hh.
  destruct (startswith h (zeros d)) eqn:Hz; cbn [negb].
  - apply prefix_length in Hz. unfold zeros in Hz.
    rewrite str_repeat_length, Hlen in Hz. lia.
  - apply (IH _ (compute_hash (set_nonce (nonce b + 1) b))); try assumption.
    + reflexivity.
    + apply compute_hash_length.
Qed.

(** The bounds of [difficulty]: at zero or below the search returns at once
    and leaves the block as it is; above 64, the length of a digest, it
    never returns, whatever the fuel. *)
Theorem proof_of_work_difficulty_bounds :
  forall (b : Block) (d : Z),
    hashcode b = Some (compute_hash b) ->
    (d <= 0 -> forall fuel, proof_of_work (S fuel) b d = Some (Return tt, b)) /\
    (64 < d -> forall fuel, proof_of_work fuel b d = None).
Proof.
  intros b d Hc. split.
  - intros Hd fuel. cbn [proof_of_work]. rewrite Hc.
    unfold zeros. replace (Z.to_nat d) with O by lia.
    cbn [str_repeat]. unfold startswith.
    now destruct (compute_hash b).
  - intros Hd fuel.
    apply (proof_of_work_too_difficult fuel b (compute_hash b) d Hd Hc).
    apply compute_hash_length.
Qed.

Lemma proof_of_work_difficulty_bounds_witness :
  (-1 <= 0 ->
   forall fuel, proof_of_work (S fuel) ex_candidate (-1)
                = Some (Return tt, ex_candidate)) /\
  (64 < -1 -> forall fuel, proof_of_work fuel ex_candidate (-1) = None).
Proof.
  apply (proof_of_work_difficulty_bounds ex_candidate (-1)).
  apply Block_init_consistent.
Defined.

(** ** What the ledger's own operations keep *)

(** Each block's [previous_hash] is the stored hash of the block before it,
    and [previous] for the first block; every block carries a hash. *)
Fixpoint linked_from (previous : string) (blocks : list Block) : bool :=
  match blocks with
  | [] => true
  | b :: rest =>
      String.eqb (previous_hash b) previous
      && match hashcode b with
         | Some h => linked_from h rest
         | None => false
         end
  end.

(** Operations one after the other, each with the fuel of its own. *)
Fixpoint run_all (import_time : json) (steps : list (nat * operation))
    (self : BlockChain) : option BlockChain :=
  match steps with
  | [] => Some self
  | (fuel, op) :: rest =>
      match run import_time fuel op self with
      | None => None
      | Some self' => run_all import_time rest self'
      end
  end.

Lemma linked_from_snoc (front : list Block) :
  forall (previous : string) (last new_block : Block) (h : string),
    linked_from previous (front ++ [last]) = true ->
    hashcode last = Some h ->
    previous_hash new_block = h ->
    has_hashcode new_block = true ->
    linked_from previous ((front ++ [last]) ++ [new_block]) = true.
Proof.
  induction front as [|b front IH]; intros previous last nb h Hl Hh Hp Hn.
  - cbn [app linked_from] in *. rewrite Hh in *.
    rewrite Hp, String.eqb_refl. unfold has_hashcode in Hn.
    destruct (hashcode nb); [|discriminate].
    now rewrite andb_true_r in *.
  - cbn [app linked_from] in *.
    apply andb_true_iff in Hl. destruct Hl as (-> & Hl).
    destruct (hashcode b) as [hb|]; [|discriminate].
    cbn [andb]. now apply (IH hb last nb h).
Qed.

(** A block that [add_block] appends links to the last block and passes
    [is_valid_proof] with the proof it is stored with. *)
Lemma add_block_appended (self : BlockChain) (block : Block) (proof : string) :
  chain (snd (add_block self block proof)) = chain self \/
  (chain (snd (add_block self block proof))
   = chain self ++ [set_hashcode (Some proof) block] /\
   (exists last, last_block self = Return last /\
                 hashcode last = Some (previous_hash block)) /\
   is_valid_proof block proof = true).
Proof.
  unfold add_block.
  destruct (last_block self) as [last|e] eqn:Hlast; [|now left].
  destruct (hashcode last) as [h|] eqn:Hh; [|now left].
  destruct (String.eqb h (previous_hash block)) eqn:E; cbn [negb]; [|now left].
  destruct (is_valid_proof block proof) eqn:Hv; cbn [negb]; [|now left].
  right. apply String.eqb_eq in E. subst h.
  split; [reflexivity|]. split; [now exists last | reflexivity].
Qed.

(** The chain [mine] leaves is the one of its call of [add_block], if it
    gets that far. *)
Lemma mine_chain_add_block (import_time : json) (fuel : nat)
    (self self' : BlockChain) (r : answer mined) :
  mine import_time fuel self = Some (r, self') ->
  chain self' = chain self \/
  exists block proof, chain self' = chain (snd (add_block self block proof)).
Proof.
  unfold mine. intro H.
  destruct (last_block self) as [last|e];
    [|injection H as <- <-; now left].
  destruct (unconfirmed_data self) as [|d ds];
    [injection H as <- <-; now left|].
  destruct (hashcode last) as [h|]; [|injection H as <- <-; now left].
  match type of H with
  | context [proof_of_work fuel ?b difficulty] =>
      destruct (proof_of_work fuel b difficulty) as [[[[]|e] nb]|]
  end; [| injection H as <- <-; now left | discriminate].
  destruct (hashcode nb) as [proof|]; [|injection H as <- <-; now left].
  right. exists nb, proof.
  destruct (add_block self nb proof) as [[ok|e] self1]; cbn [snd].
  - destruct (last_block (set_unconfirmed_data [] self1));
      injection H as <- <-; reflexivity.
  - now injection H as <- <-.
Qed.

Lemma run_appended (import_time : json) (fuel : nat) (op : operation)
    (self self' : BlockChain) :
  run import_time fuel op self = Some self' ->
  chain self' = chain self \/
  exists block proof,
    chain self' = chain self ++ [set_hashcode (Some proof) block] /\
    (exists last, last_block self = Return last /\
                  hashcode last = Some (previous_hash block)) /\
    is_valid_proof block proof = true.
Proof.
  destruct op as [record | | block proof]; cbn [run]; intro H.
  - injection H as <-. now left.
  - destruct (mine import_time fuel self) as [[r s]|] eqn:Hm; [|discriminate].
    injection H as <-. apply mine_chain_add_block in Hm.
    destruct Hm as [-> | (block & proof & ->)]; [now left|].
    destruct (add_block_appended self block proof) as [-> | H]; [now left|].
    right. now exists block, proof.
  - injection H as <-.
    destruct (add_block_appended self block proof) as [-> | H]; [now left|].
    right. now exists block, proof.
Qed.

(** The ledger of the run is one the operations reach. *)
Lemma ex_mined_reachable : reachable ex_import_time any_operation ex_mined.
Proof.
  apply (reach_step _ _ 2%nat Mine ex_pending); [|exact I|vm_compute; reflexivity].
  apply (reach_step _ _ 0%nat (Submit ex_record2) (add_data ex_ledger ex_record1));
    [|exact I|reflexivity].
  apply (reach_step _ _ 0%nat (Submit ex_record1) ex_ledger);
    [|exact I|reflexivity].
  apply (reach_fresh _ _ 3%nat). vm_compute. reflexivity.
Qed.

(** In every ledger reached from [BlockChain()] by [add_data], [mine] and
    [add_block], each block's stored hash starts with four zeros and is the
    digest of the block's fields, the first block's [previous_hash] is the
    sentinel, and each later block's [previous_hash] is the stored hash of
    the block before it. *)
Theorem reachable_chain_sealed_and_linked :
  forall (import_time : json) (allowed : BlockChain -> operation -> Prop)
         (self : BlockChain),
    reachable import_time allowed self ->
    forallb sealed (chain self) = true /\
    linked_from "0" (chain self) = true.
Proof.
  intros import_time allowed self Hreach.
  induction Hreach as [fuel self Hinit | fuel op self self' _ IH _ Hrun].
  - unfold BlockChain_init in Hinit.
    match type of Hinit with
    | context [proof_of_work fuel ?b difficulty] =>
        destruct (proof_of_work fuel b difficulty) as [[[[]|e] g]|] eqn:Hpow
    end; try discriminate.
    injection Hinit as <-. cbn [chain set_chain app forallb linked_from].
    pose proof (proof_of_work_frame _ _ _ _ _ Hpow) as (_ & _ & Hp & _).
    destruct (proof_of_work_sealed _ _ _ _ Hpow) as (h & Hh & Hz & Heq).
    specialize (Heq (Block_init_consistent _ _ _ _ _ _ _)).
    unfold sealed. rewrite Hh, Hp.
    split; [|reflexivity].
    rewrite andb_true_r. now apply is_valid_proof_iff.
  - destruct IH as (Hs & Hl). apply run_appended in Hrun.
    destruct Hrun as [-> | (block & proof & -> & (last & Hlast & Hh) & Hv)];
      [now split|].
    split.
    + rewrite forallb_app, Hs. cbn [forallb andb]. unfold sealed.
      cbn [hashcode set_hashcode].
      now rewrite is_valid_proof_set_hashcode, Hv.
    + destruct (last_block_in_chain self last Hlast) as (front & Hf).
      rewrite Hf in Hl |- *.
      now apply (linked_from_snoc front "0" last _ (previous_hash block)).
Qed.

Lemma reachable_chain_sealed_and_linked_witness :
  forallb sealed (chain ex_mined) = true /\
  linked_from "0" (chain ex_mined) = true.
Proof.
  apply (reachable_chain_sealed_and_linked ex_import_time any_operation ex_mined).
  exact ex_mined_reachable.
Defined.

(** The ledger is append-only: whatever [add_data], [mine] and [add_block]
    calls follow one another, the blocks already in the chain stay where
    and as they are, and each call adds at most one block. *)
Theorem run_all_append_only :
  forall (import_time : json) (steps : list (nat * operation))
         (self self' : BlockChain),
    run_all import_time steps self = Some self' ->
    exists suffix,
      chain self' = chain self ++ suffix /\
      (List.length suffix <= List.length steps)%nat.
Proof.
  intros import_time steps. induction steps as [|[fuel op] steps IH];
    intros self self' H.
  - injection H as <-. exists []. now rewrite app_nil_r.
  - cbn [run_all] in H.
    destruct (run import_time fuel op self) as [self1|] eqn:Hrun;
      [|discriminate].
    apply IH in H. destruct H as (suffix & -> & Hlen).
    apply run_chain in Hrun.
    destruct Hrun as [-> | (nb & -> & _)].
    + exists suffix. split; [reflexivity | cbn [List.length]; lia].
    + exists (nb :: suffix). rewrite <- app_assoc.
      split; [reflexivity | cbn [List.length]; lia].
Qed.

Lemma run_all_append_only_witness :
  exists suffix,
    chain ex_mined = chain ex_ledger ++ suffix /\
    (List.length suffix
     <= List.length [(0%nat, Submit ex_record1); (0%nat, Submit ex_record2);
                     (2%nat, Mine)])%nat.
Proof.
  apply (run_all_append_only ex_import_time
           [(0%nat, Submit ex_record1); (0%nat, Submit ex_record2);
            (2%nat, Mine)] ex_ledger ex_mined).
  vm_compute. reflexivity.
Defined.

Lemma reachable_chain_rejected_witness :
  fst (chain_is_valid (map ItemBlock (chain ex_mined))) = Return false.
Proof.
  apply (reachable_chain_rejected ex_import_time any_operation ex_mined).
  exact ex_mined_reachable.
Defined.

(** ** What [chain_is_valid] accepts and what it does to the blocks *)


(** A block after a pass of the loop that went on: [hashcode] deleted,
    [this_hash] assigned. *)
Definition stripped (b : Block) : Block :=
  set_this_hash (hashcode b) (set_hashcode None b).



Lemma chain_is_valid_loop_effect (blocks : list Block) :
  forall previous : string,
    exists blocks',
      snd (chain_is_valid_loop previous (map ItemBlock blocks))
      = map ItemBlock blocks' /\
      map index blocks' = map index blocks /\
      map content blocks' = map content blocks /\
      map previous_hash blocks' = map previous_hash blocks /\
      map timestamp blocks' = map timestamp blocks /\
      map nonce blocks' = map nonce blocks /\
      (fst (chain_is_valid_loop previous (map ItemBlock blocks)) = Return true ->
       blocks' = map stripped blocks).
Proof.
  induction blocks as [|b blocks IH]; intro previous.
  - exists []. now repeat split.
  - cbn [map chain_is_valid_loop].
    destruct (hashcode b) as [h|] eqn:Hh.
    + match goal with
      | |- context [if ?c then _ else _] => destruct c
      end.
      * exists (set_hashcode None b :: blocks).
        cbn [fst snd map]. repeat split; discriminate.
      * destruct (IH h) as (blocks' & Hs & Hi & Hc & Hp & Ht & Hn & Hok).
        destruct (chain_is_valid_loop h (map ItemBlock blocks)) as [r rest'].
        cbn [fst snd] in *. subst rest'.
        exists (set_this_hash (Some h) (set_hashcode None b) :: blocks').
        cbn [map]. rewrite Hi, Hc, Hp, Ht, Hn.
        repeat split. intro Hr. rewrite (Hok Hr).
        unfold stripped. now rewrite Hh.
    + exists (b :: blocks). cbn [fst snd map]. repeat split; discriminate.
Qed.

(** [chain_is_valid] keeps the number of blocks and the five hashed fields
    of each; when it answers [True] it has deleted the [hashcode] of every
    block and stored it as [this_hash]. *)
Theorem chain_is_valid_effect :
  forall blocks : list Block,
    exists blocks',
      snd (chain_is_valid (map ItemBlock blocks)) = map ItemBlock blocks' /\
      map index blocks' = map index blocks /\
      map content blocks' = map content blocks /\
      map previous_hash blocks' = map previous_hash blocks /\
      map timestamp blocks' = map timestamp blocks /\
      map nonce blocks' = map nonce blocks /\
      (fst (chain_is_valid (map ItemBlock blocks)) = Return true ->
       blocks' = map stripped blocks).
Proof. intro blocks. apply chain_is_valid_loop_effect. Qed.

(** * The request handlers *)

(** A body decoded by [request.get_json()] is a [json]; a [dict] is the list
    of its items in insertion order, with distinct keys.  The handlers
    below return what the Python function returns; Flask's own treatment of
    the request and of the returned value is not part of the model. *)

(** ** Dictionaries and truth values *)

(** [d.get(key)]. *)
Fixpoint dict_get (key : string) (items : list (string * json)) : option json :=
  match items with
  | [] => None
  | (k, v) :: rest => if String.eqb k key then Some v else dict_get key rest
  end.

(** [d[key] = value]: in place when the key is there, at the end otherwise. *)
Fixpoint dict_set (key : string) (value : json) (items : list (string * json))
  : list (string * json) :=
  match items with
  | [] => [(key, value)]
  | (k, v) :: rest =>
      if String.eqb k key then (k, value) :: rest
      else (k, v) :: dict_set key value rest
  end.

(** [bool(v)]. *)
Definition truthy (v : json) : bool :=
  match v with
  | JNull => false
  | JBool b => b
  | JInt z => negb (z =? 0)
  | JFloat repr => negb (String.eqb repr "0.0" || String.eqb repr "-0.0")
  | JStr s => negb (String.eqb s EmptyString)
  | JList items => match items with [] => false | _ :: _ => true end
  | JDict items => match items with [] => false | _ :: _ => true end
  end.

(** [not d.get(field)]. *)
Definition missing (field : string) (items : list (string * json)) : bool :=
  match dict_get field items with
  | Some v => negb (truthy v)
  | None => true
  end.

(** What a handler returns: a string, or a string with a status code. *)
Inductive returned : Type :=
  | Body (text : string)
  | BodyStatus (text : string) (code : Z).

(** ** POST /add_new_data *)

(** [now] is what [time.time()] returns during the call. *)
Definition add_new_data (blockchain : global) (now : json) (incoming_data : json)
  : answer returned * global :=
  match incoming_data with
  | JDict items =>
      if missing "author" items then
        (Return (BodyStatus "Invalid data" 404), blockchain)
      else if missing "content" items then
        (Return (BodyStatus "Invalid data" 404), blockchain)
      else
        let incoming_data := JDict (dict_set "timestamp" now items) in
        match blockchain with
        | GBlockChain bc =>
            (Return (BodyStatus "Successfully added" 201),
             GBlockChain (add_data bc incoming_data))
        | GList _ => (Raise AttributeError, blockchain)
        end
  | _ => (Raise AttributeError, blockchain)
  end.

(** ** POST /add_block *)

(** The four keys [verify_and_add] reads in the body, with the types the
    blocks of this module have in them: [index] an [int], [content] a list,
    [hashcode] a [str]; [timestamp] is any value. *)
Record block_info : Type := mkBlockInfo {
  bi_index : Z;
  bi_content : list json;
  bi_timestamp : json;
  bi_hashcode : string
}.

(** [add_block] for a block whose [previous_hash] is not a [str]: the last
    block's hash is read, and a [str] differs from any other value. *)
Definition add_block_mismatched (self : BlockChain) : answer bool * BlockChain :=
  match last_block self with
  | Raise e => (Raise e, self)
  | Return last =>
      match hashcode last with
      | None => (Raise AttributeError, self)
      | Some _ => (Return false, self)
      end
  end.

(** The call is [Block(block_info["index"], block_info["content"],
    block_info["timestamp"])]: the third positional parameter of the
    constructor is [previous_hash], and no timestamp is passed. *)
Definition verify_and_add (import_time : json) (blockchain : global)
    (info : block_info) : answer returned * global :=
  match blockchain with
  | GList _ => (Raise AttributeError, blockchain)
  | GBlockChain bc =>
      let (added, bc) :=
        match bi_timestamp info with
        | JStr previous_hash =>
            let block :=
              Block_init import_time (bi_index info) (bi_content info)
                previous_hash None None None in
            add_block bc block (bi_hashcode info)
        | _ => add_block_mismatched bc
        end in
      match added with
      | Raise e => (Raise e, GBlockChain bc)
      | Return false =>
          (Return (BodyStatus "The block was discard my the node" 400),
           GBlockChain bc)
      | Return true =>
          (Return (BodyStatus "The block has been added" 201), GBlockChain bc)
      end
  end.

(** ** [create_chain_from_dump] *)

(** The keys [create_chain_from_dump] reads in an element of the dump, with
    the types [get_chain] gives them. *)
Record dump_entry : Type := mkDumpEntry {
  de_content : list json;
  de_previous_hash : string;
  de_timestamp : json;
  de_hashcode : string
}.

(** What the function answers: the ledger it built, an exception of
    [add_block], or [Exception("The chain dump is tampered")]. *)
Inductive rebuilt : Type :=
  | Rebuilt (bchain : BlockChain)
  | RebuildRaise (e : exn)
  | Tampered.

(** [Block(index, block_info["content"], block_info["previous_hash"],
    block_info["timestamp"])]. *)
Definition rebuild_block (import_time : json) (index : Z) (info : dump_entry)
  : Block :=
  Block_init import_time index (de_content info) (de_previous_hash info)
    (Some (de_timestamp info)) None None.

(** The [for index, block_info in enumerate(chain_dump)] loop from [index]. *)
Fixpoint create_chain_loop (import_time : json) (index : Z)
    (chain_dump : list dump_entry) (bchain : BlockChain) : rebuilt :=
  match chain_dump with
  | [] => Rebuilt bchain
  | info :: rest =>
      let block := rebuild_block import_time index info in
      if 0 <? index then
        match add_block bchain block (de_hashcode info) with
        | (Raise e, _) => RebuildRaise e
        | (Return false, _) => Tampered
        | (Return true, bchain) =>
            create_chain_loop import_time (index + 1) rest bchain
        end
      else
        create_chain_loop import_time (index + 1) rest
          (set_chain (chain bchain ++ [block]) bchain)
  end.

Definition create_chain_from_dump (import_time : json) (fuel : nat)
    (chain_dump : list dump_entry) : option rebuilt :=
  match BlockChain_init import_time fuel with
  | None => None
  | Some (Raise e, _) => Some (RebuildRaise e)
  | Some (Return _, bchain) =>
      Some (create_chain_loop import_time 0 chain_dump bchain)
  end.

(** The blocks the loop builds from [index] on. *)
Fixpoint rebuild_all (import_time : json) (index : Z)
    (chain_dump : list dump_entry) : list Block :=
  match chain_dump with
  | [] => []
  | info :: rest =>
      rebuild_block import_time index info
      :: rebuild_all import_time (index + 1) rest
  end.

(** ** GET /mine and [announce_new_block] *)

(** A peer: its address in [peers] and what it answers to [GET /chain]. *)
Record peer : Type := mkPeer {
  peer_address : string;
  peer_answer : response
}.

(** The requests [announce_new_block] posts: URL and body, one per peer. *)
Definition announce_new_block (peers : list string) (block : Block)
  : list (string * string) :=
  map (fun peer =>
         (("http://" ++ peer ++ "/add_block")%string,
          json_dumps (Block_dict block))) peers.

(** The third component lists the announcements posted.  [not result]
    holds when [mine] returned [False] and when it returned the index 0. *)
Definition mine_unconfirmed_data (import_time : json) (fuel : nat)
    (blockchain : global) (peers : list peer)
  : option (answer returned * global * list (string * string)) :=
  match blockchain with
  | GList _ => Some (Raise AttributeError, blockchain, [])
  | GBlockChain bc =>
      match mine import_time fuel bc with
      | None => None
      | Some (Raise e, bc) => Some (Raise e, GBlockChain bc, [])
      | Some (Return MinedFalse, bc) =>
          Some (Return (Body "No data to be added"), GBlockChain bc, [])
      | Some (Return (MinedIndex result), bc) =>
          if result =? 0 then
            Some (Return (Body "No data to be added"), GBlockChain bc, [])
          else
            let chain_length := List.length (chain bc) in
            match consensus (GBlockChain bc) (map peer_answer peers) with
            | (Raise e, blockchain) => Some (Raise e, blockchain, [])
            | (Return _, GList l) => Some (Raise AttributeError, GList l, [])
            | (Return _, GBlockChain bc) =>
                let text :=
                  ("Block #" ++ str_of_int result ++ " is mined")%string in
                if Nat.eqb chain_length (List.length (chain bc)) then
                  match last_block bc with
                  | Raise e => Some (Raise e, GBlockChain bc, [])
                  | Return last =>
                      Some (Return (Body text), GBlockChain bc,
                            announce_new_block (map peer_address peers) last)
                  end
                else Some (Return (Body text), GBlockChain bc, [])
            end
      end
  end.

(** ** A node behind its handlers *)

Inductive request : Type :=
  | PostData (now : json) (body : json)
  | GetMine (fuel : nat) (peers : list peer)
  | PostBlock (info : block_info).

(** What [blockchain] is bound to after the handler of a request has run. *)
Definition serve (import_time : json) (req : request) (blockchain : global)
  : option global :=
  match req with
  | PostData now body => Some (snd (add_new_data blockchain now body))
  | GetMine fuel peers =>
      option_map (fun r => snd (fst r))
        (mine_unconfirmed_data import_time fuel blockchain peers)
  | PostBlock info => Some (snd (verify_and_add import_time blockchain info))
  end.

Fixpoint serve_all (import_time : json) (reqs : list request)
    (blockchain : global) : option global :=
  match reqs with
  | [] => Some blockchain
  | req :: rest =>
      match serve import_time req blockchain with
      | None => None
      | Some blockchain => serve_all import_time rest blockchain
      end
  end.

(** A record as [add_new_data] lets it in: a [dict] with a true [author]
    and [content], and with a [timestamp]. *)
Definition stamped_record (record : json) : bool :=
  match record with
  | JDict items =>
      negb (missing "author" items) && negb (missing "content" items)
      && match dict_get "timestamp" items with Some _ => true | None => false end
  | _ => false
  end.

Definition pending_stamped (blockchain : global) : Prop :=
  match blockchain with
  | GBlockChain bc => forallb stamped_record (unconfirmed_data bc) = true
  | GList _ => True
  end.

(** ** Values for the instances below *)

(** A body with a timestamp of the client's own. *)
Definition ex_body : list (string * json) :=
  [ ("author", JStr "alice"); ("timestamp", JStr "yesterday");
    ("content", JStr "hello") ].

(** The body a peer posts for [ex_block1] and one whose [timestamp] is the
    genesis hash, with the digest at nonce 0 of the block built from it. *)
Definition ex_info_announced : block_info :=
  mkBlockInfo 1 [ex_record1; ex_record2] ex_import_time
    "0000a174f03bab2fff56213d4ac7192af41e77328f8cf08821612ca243fd2571".

Definition ex_info_crafted : block_info :=
  mkBlockInfo 1 [JInt 24413] (JStr ex_genesis_hash)
    "0000279a33c2ccb9472e2a74e1e5799e70d0e264e098bb961b734f2917b20cf3".

(** The dump of the ledger [ex_mined], and a dump whose second block has a
    digest with four zeros at nonce 0 and links to the digest at nonce 0 of
    the first. *)
Definition ex_dump_mined : list dump_entry :=
  [ mkDumpEntry [] "0" ex_import_time ex_genesis_hash;
    mkDumpEntry [ex_record1; ex_record2] ex_genesis_hash ex_import_time
      "0000a174f03bab2fff56213d4ac7192af41e77328f8cf08821612ca243fd2571" ].

Definition ex_dump_unsealed : list dump_entry :=
  [ mkDumpEntry [] "0" ex_import_time ex_genesis_hash;
    mkDumpEntry []
      "03c7978975bde7a857194fddcd69596209b40edacecfd25a98a0a3d5d2779e10"
      (JFloat "1700010631.0")
      "000047046581d1ae5467c92986b7049601eed1ec4b54e8b8e880f1a25c2d56f0" ].

(** Two peers: one at the fresh ledger, one that reports three blocks. *)
Definition ex_peer_behind : peer := mkPeer "10.0.0.2:8000" (get_chain ex_ledger).

Definition ex_peer_ahead : peer :=
  mkPeer "10.0.0.3:8000"
    (get_chain (mkBlockChain [] [ex_genesis; ex_peer_block; ex_foreign])).

(** ** Submitting a record *)

Lemma dict_get_set_same (key : string) (value : json)
    (items : list (string * json)) :
  dict_get key (dict_set key value items) = Some value.
Proof.
  induction items as [|[k v] items IH]; cbn [dict_set dict_get].
  - now rewrite String.eqb_refl.
  - destruct (String.eqb k key) eqn:E; cbn [dict_get]; now rewrite E.
Qed.

Lemma dict_get_set_other (key key' : string) (value : json)
    (items : list (string * json)) :
  key' <> key ->
  dict_get key' (dict_set key value items) = dict_get key' items.
Proof.
  intro Hne. induction items as [|[k v] items IH]; cbn [dict_set dict_get].
  - apply String.eqb_neq in Hne. now rewrite String.eqb_sym, Hne.
  - destruct (String.eqb k key) eqn:E; cbn [dict_get].
    + apply String.eqb_eq in E. subst k.
      apply String.eqb_neq in Hne. now rewrite String.eqb_sym, Hne.
    + now rewrite IH.
Qed.

Lemma missing_set_other (key field : string) (value : json)
    (items : list (string * json)) :
  field <> key ->
  missing field (dict_set key value items) = missing field items.
Proof. intro H. unfold missing. now rewrite dict_get_set_other. Qed.

(** A body with a true [author] and a true [content] is answered 201: the
    record lands at the end of the pending buffer with the server's clock
    as its [timestamp], whatever timestamp the client sent, and with every
    other key as sent; the chain is not touched. *)
Theorem add_new_data_stamps :
  forall (bc : BlockChain) (now : json) (items : list (string * json)),
    missing "author" items = false ->
    missing "content" items = false ->
    exists record,
      add_new_data (GBlockChain bc) now (JDict items)
      = (Return (BodyStatus "Successfully added" 201),
         GBlockChain
           (mkBlockChain (unconfirmed_data bc ++ [JDict record]) (chain bc))) /\
      dict_get "timestamp" record = Some now /\
      (forall key, key <> "timestamp" ->
                   dict_get key record = dict_get key items).
Proof.
  intros bc now items Ha Hc. exists (dict_set "timestamp" now items).
  split; [|split].
  - cbn [add_new_data]. now rewrite Ha, Hc.
  - apply dict_get_set_same.
  - intros key Hkey. now apply dict_get_set_other.
Qed.

Lemma add_new_data_stamps_witness :
  exists record,
    add_new_data (GBlockChain ex_ledger) (JFloat "1700003406.75") (JDict ex_body)
    = (Return (BodyStatus "Successfully added" 201),
       GBlockChain
         (mkBlockChain (unconfirmed_data ex_ledger ++ [JDict record])
            (chain ex_ledger))) /\
    dict_get "timestamp" record = Some (JFloat "1700003406.75") /\
    (forall key, key <> "timestamp" ->
                 dict_get key record = dict_get key ex_body).
Proof.
  apply (add_new_data_stamps ex_ledger (JFloat "1700003406.75") ex_body).
  - reflexivity.
  - reflexivity.
Defined.

(** ** A block posted by a peer *)

(** [verify_and_add] answers 201 exactly when the body's [timestamp] is the
    string that is the hash of the last block and its [hashcode] passes
    [is_valid_proof] for the block built with that string as
    [previous_hash], the import time as timestamp and nonce 0, which is the
    block appended; in every other case, so whenever the [timestamp] is a
    number, it answers 400 and the ledger is as before. *)
Theorem verify_and_add_accepts_iff :
  forall (import_time : json) (bc : BlockChain) (info : block_info)
         (last : Block) (h : string),
    last_block bc = Return last ->
    hashcode last = Some h ->
    let block :=
      Block_init import_time (bi_index info) (bi_content info) h
        None None None in
    (bi_timestamp info = JStr h /\
     is_valid_proof block (bi_hashcode info) = true ->
     verify_and_add import_time (GBlockChain bc) info
     = (Return (BodyStatus "The block has been added" 201),
        GBlockChain (set_chain (chain bc ++ [block]) bc))) /\
    (~ (bi_timestamp info = JStr h /\
        is_valid_proof block (bi_hashcode info) = true) ->
     verify_and_add import_time (GBlockChain bc) info
     = (Return (BodyStatus "The block was discard my the node" 400),
        GBlockChain bc)).
Proof.
  intros import_time bc info last h Hlast Hh block.
  assert (Hother : add_block_mismatched bc = (Return false, bc))
    by (unfold add_block_mismatched; now rewrite Hlast, Hh).
  unfold verify_and_add.
  destruct (bi_timestamp info) as [| | | |s| |];
    try (rewrite Hother; split; [intros (H & _); discriminate | reflexivity]).
  unfold add_block. rewrite Hlast, Hh. cbn [previous_hash Block_init set_hashcode].
  destruct (String.eqb h s) eqn:E; cbn [negb].
  - apply String.eqb_eq in E. subst s. fold block.
    destruct (is_valid_proof block (bi_hashcode info)) eqn:Hv; cbn [negb].
    + split; [|intro H; now elim H].
      intros _. apply is_valid_proof_iff in Hv. destruct Hv as (_ & Hv).
      rewrite (set_hashcode_same block (bi_hashcode info)); [reflexivity|].
      rewrite Hv. apply Block_init_consistent.
    + split; [intros (_ & H); discriminate | reflexivity].
  - apply String.eqb_neq in E.
    split; [intros (H & _); congruence | reflexivity].
Qed.

Lemma verify_and_add_accepts_iff_witness :
  let block :=
    Block_init ex_import_time (bi_index ex_info_announced)
      (bi_content ex_info_announced) ex_genesis_hash None None None in
  (bi_timestamp ex_info_announced = JStr ex_genesis_hash /\
   is_valid_proof block (bi_hashcode ex_info_announced) = true ->
   verify_and_add ex_import_time (GBlockChain ex_ledger) ex_info_announced
   = (Return (BodyStatus "The block has been added" 201),
      GBlockChain (set_chain (chain ex_ledger ++ [block]) ex_ledger))) /\
  (~ (bi_timestamp ex_info_announced = JStr ex_genesis_hash /\
      is_valid_proof block (bi_hashcode ex_info_announced) = true) ->
   verify_and_add ex_import_time (GBlockChain ex_ledger) ex_info_announced
   = (Return (BodyStatus "The block was discard my the node" 400),
      GBlockChain ex_ledger)).
Proof.
  apply (verify_and_add_accepts_iff ex_import_time ex_ledger ex_info_announced
           ex_genesis ex_genesis_hash).
  - reflexivity.
  - reflexivity.
Defined.

(** The body a peer posts for the block it mined on the same genesis block
    is turned down; a body whose [timestamp] is the genesis hash is let in. *)
Example verify_and_add_run :
  fst (verify_and_add ex_import_time (GBlockChain ex_ledger) ex_info_announced)
  = Return (BodyStatus "The block was discard my the node" 400) /\
  fst (verify_and_add ex_import_time (GBlockChain ex_ledger) ex_info_crafted)
  = Return (BodyStatus "The block has been added" 201).
Proof. vm_compute. split; reflexivity. Qed.

(** ** The pending buffer behind the handlers *)

Lemma mine_pending (import_time : json) (fuel : nat)
    (self self' : BlockChain) (r : answer mined) :
  mine import_time fuel self = Some (r, self') ->
  unconfirmed_data self' = unconfirmed_data self \/ unconfirmed_data self' = [].
Proof.
  unfold mine. intro H.
  destruct (last_block self) as [last|e];
    [|injection H as <- <-; now left].
  destruct (unconfirmed_data self) as [|d ds] eqn:Hd;
    [injection H as <- <-; now left|].
  destruct (hashcode last) as [h|]; [|injection H as <- <-; now left].
  match type of H with
  | context [proof_of_work fuel ?b difficulty] =>
      destruct (proof_of_work fuel b difficulty) as [[[[]|e] nb]|]
  end; [| injection H as <- <-; now left | discriminate].
  destruct (hashcode nb) as [proof|]; [|injection H as <- <-; now left].
  pose proof (add_block_chain self nb proof) as (Hp & _).
  destruct (add_block self nb proof) as [[ok|e] self1]; cbn [snd] in Hp.
  - right. destruct (last_block (set_unconfirmed_data [] self1));
      injection H as <- <-; reflexivity.
  - injection H as <- <-. left. now rewrite Hp, Hd.
Qed.

Lemma consensus_global (bc : BlockChain) (responses : list response) :
  snd (consensus (GBlockChain bc) responses) = GBlockChain bc \/
  exists l, snd (consensus (GBlockChain bc) responses) = GList l.
Proof.
  cbn [consensus].
  destruct (consensus_loop responses None (Z.of_nat (List.length (chain bc))))
    as [[[|j l]|]|e]; cbn [snd]; eauto.
Qed.

Lemma serve_pending_stamped (import_time : json) (req : request)
    (blockchain blockchain' : global) :
  pending_stamped blockchain ->
  serve import_time req blockchain = Some blockchain' ->
  pending_stamped blockchain'.
Proof.
  intros Hp H. destruct req as [now body | fuel peers | info]; cbn [serve] in H.
  - injection H as <-. unfold add_new_data.
    destruct body as [| | | | | |items]; try exact Hp.
    destruct (missing "author" items) eqn:Ha; [exact Hp|].
    destruct (missing "content" items) eqn:Hc; [exact Hp|].
    destruct blockchain as [bc|l]; [|exact Hp].
    cbn [snd pending_stamped add_data set_unconfirmed_data unconfirmed_data] in *.
    rewrite forallb_app, Hp. cbn [forallb stamped_record].
    rewrite !missing_set_other, Ha, Hc, dict_get_set_same by discriminate.
    reflexivity.
  - destruct blockchain as [bc|l].
    + cbn [mine_unconfirmed_data] in H.
      destruct (mine import_time fuel bc) as [[r bc1]|] eqn:Hm; [|discriminate].
      assert (Hp1 : pending_stamped (GBlockChain bc1)).
      { apply mine_pending in Hm. cbn [pending_stamped] in *.
        destruct Hm as [-> | ->]; [assumption | reflexivity]. }
      destruct r as [[|result]|e];
        try (injection H as <-; exact Hp1).
      destruct (result =? 0); [injection H as <-; exact Hp1|].
      destruct (consensus_global bc1 (map peer_answer peers)) as [Hg | (l & Hg)];
        destruct (consensus (GBlockChain bc1) (map peer_answer peers))
          as [[ok|e] g]; cbn [snd] in Hg; subst g.
      * destruct (Nat.eqb _ _); [destruct (last_block bc1)|];
          injection H as <-; exact Hp1.
      * injection H as <-. exact Hp1.
      * injection H as <-. exact I.
      * injection H as <-. exact I.
    + injection H as <-. exact I.
  - injection H as <-. destruct blockchain as [bc|l]; [|exact I].
    cbn [verify_and_add].
    assert (Hsame : unconfirmed_data
                      (snd (match bi_timestamp info with
                            | JStr previous_hash' =>
                                add_block bc
                                  (Block_init import_time (bi_index info)
                                     (bi_content info) previous_hash'
                                     None None None) (bi_hashcode info)
                            | _ => add_block_mismatched bc
                            end)) = unconfirmed_data bc).
    { assert (Hm : snd (add_block_mismatched bc) = bc).
      { unfold add_block_mismatched. destruct (last_block bc) as [last|e];
          [destruct (hashcode last)|]; reflexivity. }
      destruct (bi_timestamp info); try (now rewrite Hm).
      apply add_block_chain. }
    match type of Hsame with
    | context [snd ?x] => destruct x as [[[|]|e] bc1]
    end; cbn [snd pending_stamped] in *; now rewrite Hsame.
Qed.

(** Whatever requests the three handlers serve, every record in the pending
    buffer has a true [author], a true [content] and a [timestamp]: a body
    that lacks one of the two fields never gets in, and neither mining nor a
    peer's block puts a record there. *)
Theorem served_pending_stamped :
  forall (import_time : json) (reqs : list request)
         (blockchain blockchain' : global),
    pending_stamped blockchain ->
    serve_all import_time reqs blockchain = Some blockchain' ->
    pending_stamped blockchain'.
Proof.
  intros import_time reqs. induction reqs as [|req reqs IH];
    intros blockchain blockchain' Hp H.
  - now injection H as <-.
  - cbn [serve_all] in H.
    destruct (serve import_time req blockchain) as [g|] eqn:Hs; [|discriminate].
    apply (IH g); [|assumption].
    now apply (serve_pending_stamped import_time req blockchain).
Qed.

Lemma served_pending_stamped_witness :
  pending_stamped
    (GBlockChain
       (mkBlockChain
          [JDict [ ("author", JStr "carol"); ("content", JStr "again");
                   ("timestamp", JFloat "1700004100.0") ]]
          [ex_genesis; ex_block1])).
Proof.
  apply (served_pending_stamped ex_import_time
           [ PostData (JFloat "1700003406.75")
               (JDict [("author", JStr "alice"); ("content", JStr "hello")]);
             PostData (JFloat "1700003500.0")
               (JDict [("author", JStr ""); ("content", JStr "dropped")]);
             PostData (JFloat "1700004040.625")
               (JDict [("author", JStr "bob"); ("content", JStr "world")]);
             PostBlock ex_info_announced;
             GetMine 2 [ex_peer_behind];
             PostData (JFloat "1700004100.0")
               (JDict [("author", JStr "carol"); ("content", JStr "again")]) ]
           (GBlockChain ex_ledger)).
  - reflexivity.
  - vm_compute. reflexivity.
Defined.

(** ** Rebuilding a ledger from a dump *)

Lemma rebuild_block_consistent (import_time : json) (index : Z)
    (info : dump_entry) :
  hashcode (rebuild_block import_time index info)
  = Some (compute_hash (rebuild_block import_time index info)).
Proof. apply Block_init_consistent. Qed.

Lemma create_chain_loop_rebuilt (import_time : json)
    (chain_dump : list dump_entry) :
  forall (index : Z) (bchain bc : BlockChain) (last : Block) (h : string),
    0 < index ->
    last_block bchain = Return last ->
    hashcode last = Some h ->
    create_chain_loop import_time index chain_dump bchain = Rebuilt bc ->
    bc = set_chain (chain bchain ++ rebuild_all import_time index chain_dump)
           bchain /\
    forallb sealed (rebuild_all import_time index chain_dump) = true /\
    linked_from h (rebuild_all import_time index chain_dump) = true /\
    map de_hashcode chain_dump
    = map compute_hash (rebuild_all import_time index chain_dump).
Proof.
  induction chain_dump as [|info rest IH];
    intros index bchain bc last h Hidx Hlast Hh H.
  - cbn [create_chain_loop rebuild_all] in *. injection H as <-.
    rewrite app_nil_r. now destruct bchain.
  - cbn [create_chain_loop rebuild_all] in H |- *.
    apply Z.ltb_lt in Hidx. rewrite Hidx in H. apply Z.ltb_lt in Hidx.
    set (block := rebuild_block import_time index info) in *.
    unfold add_block in H. rewrite Hlast, Hh in H.
    destruct (String.eqb h (previous_hash block)) eqn:E; cbn [negb] in H;
      [|discriminate].
    destruct (is_valid_proof block (de_hashcode info)) eqn:Hv; cbn [negb] in H;
      [|discriminate].
    apply String.eqb_eq in E.
    pose proof Hv as Hv'. apply is_valid_proof_iff in Hv'.
    destruct Hv' as (_ & Hd).
    assert (Hb : hashcode block = Some (de_hashcode info))
      by (rewrite Hd; apply rebuild_block_consistent).
    rewrite (set_hashcode_same block _ Hb) in H.
    apply (IH (index + 1) _ bc block (de_hashcode info)) in H;
      [|lia|apply last_block_app|exact Hb].
    destruct H as (-> & Hs & Hl & Hm).
    cbn [chain set_chain unconfirmed_data forallb linked_from map].
    rewrite <- app_assoc. cbn [app].
    split; [reflexivity|]. split; [|split].
    + unfold sealed at 1. now rewrite Hb, Hv, Hs.
    + now rewrite Hb, <- E, String.eqb_refl, Hl.
    + now rewrite Hd at 1; rewrite Hm.
Qed.

(** When [create_chain_from_dump] returns a ledger, its chain is the
    node's own fresh genesis block followed by one block per element of the
    dump, built by the constructor and so with nonce 0 and with the position
    in the dump as index.  The first of them is taken as it comes; every
    later one passed [add_block]: its claimed hash starts with four zeros,
    is the digest of the block at nonce 0, and its [previous_hash] is the
    digest at nonce 0 of the block before it. *)
Theorem create_chain_from_dump_rebuilt :
  forall (import_time : json) (fuel : nat) (chain_dump : list dump_entry)
         (bc : BlockChain),
    create_chain_from_dump import_time fuel chain_dump = Some (Rebuilt bc) ->
    exists genesis,
      BlockChain_init import_time fuel
      = Some (Return tt, mkBlockChain [] [genesis]) /\
      bc = mkBlockChain [] (genesis :: rebuild_all import_time 0 chain_dump) /\
      List.length (chain bc) = S (List.length chain_dump) /\
      match rebuild_all import_time 0 chain_dump, chain_dump with
      | first :: later, _ :: claimed =>
          forallb sealed later = true /\
          linked_from (compute_hash first) later = true /\
          map de_hashcode claimed = map compute_hash later
      | _, _ => True
      end.
Proof.
  intros import_time fuel chain_dump bc H.
  unfold create_chain_from_dump in H.
  destruct (BlockChain_init import_time fuel) as [[[[]|e] bchain]|] eqn:Hinit;
    try discriminate.
  injection H as H.
  destruct (BlockChain_init_chain _ _ _ Hinit) as (g & Hg & _).
  assert (Hb : bchain = mkBlockChain [] [g]).
  { unfold BlockChain_init in Hinit.
    destruct (proof_of_work fuel _ difficulty) as [[[[]|e] g']|];
      try discriminate.
    injection Hinit as <-. cbn [chain set_chain app] in Hg.
    now injection Hg as ->. }
  subst bchain. exists g. split; [reflexivity|].
  assert (Hlen : forall i d, List.length (rebuild_all import_time i d)
                             = List.length d).
  { intros i d. revert i. induction d as [|x d IHd]; intro i;
      [reflexivity|]. cbn [rebuild_all List.length]. now rewrite IHd. }
  destruct chain_dump as [|info rest].
  - cbn [create_chain_loop] in H. injection H as <-. now repeat split.
  - cbn [create_chain_loop rebuild_all] in H |- *.
    replace (0 <? 0) with false in H by reflexivity.
    apply (create_chain_loop_rebuilt import_time rest (0 + 1) _ bc
             (rebuild_block import_time 0 info)
             (compute_hash (rebuild_block import_time 0 info))) in H;
      [|lia|apply last_block_app|apply rebuild_block_consistent].
    destruct H as (-> & Hs & Hl & Hm).
    cbn [chain set_chain unconfirmed_data app List.length].
    split; [reflexivity|]. split; [now rewrite Hlen|].
    now repeat split.
Qed.

Lemma create_chain_from_dump_rebuilt_witness :
  exists genesis,
    BlockChain_init ex_import_time 3
    = Some (Return tt, mkBlockChain [] [genesis]) /\
    mkBlockChain []
      (ex_genesis :: rebuild_all ex_import_time 0 ex_dump_unsealed)
    = mkBlockChain [] (genesis :: rebuild_all ex_import_time 0 ex_dump_unsealed) /\
    List.length
      (chain (mkBlockChain []
                (ex_genesis :: rebuild_all ex_import_time 0 ex_dump_unsealed)))
    = S (List.length ex_dump_unsealed) /\
    match rebuild_all ex_import_time 0 ex_dump_unsealed, ex_dump_unsealed with
    | first :: later, _ :: claimed =>
        forallb sealed later = true /\
        linked_from (compute_hash first) later = true /\
        map de_hashcode claimed = map compute_hash later
    | _, _ => True
    end.
Proof.
  apply (create_chain_from_dump_rebuilt ex_import_time 3 ex_dump_unsealed
           (mkBlockChain []
              (ex_genesis :: rebuild_all ex_import_time 0 ex_dump_unsealed))).
  vm_compute. reflexivity.
Defined.

(** The dump of the ledger [ex_mined], whose blocks were sealed at the
    nonces 2 and 1, is refused as tampered; a dump of one element gives a
    ledger of two blocks of index 0. *)
Example create_chain_from_dump_run :
  create_chain_from_dump ex_import_time 3 ex_dump_mined = Some Tampered /\
  option_map
    (fun r => match r with Rebuilt bc => map index (chain bc) | _ => [] end)
    (create_chain_from_dump ex_import_time 3
       [mkDumpEntry [] "0" ex_import_time ex_genesis_hash])
  = Some [0; 0].
Proof. vm_compute. split; reflexivity. Qed.

(** ** Mining on request *)

Lemma consensus_loop_behind (responses rest : list response) :
  forall (longest_chain : option (list json)) (max_len : Z),
    Forall (fun r => resp_length r <= max_len) responses ->
    consensus_loop (responses ++ rest) longest_chain max_len
    = consensus_loop rest longest_chain max_len.
Proof.
  induction responses as [|r responses IH]; intros longest_chain max_len H;
    [reflexivity|].
  inversion H as [|r' l' Hr Hrest]; subst.
  cbn [app consensus_loop].
  replace (max_len <? resp_length r) with false
    by (symmetry; apply Z.ltb_ge; exact Hr).
  now apply IH.
Qed.

(** No peer reports more blocks than the local chain has: [consensus]
    answers [False]. *)
Lemma consensus_behind (bc : BlockChain) (responses : list response) :
  Forall (fun r => resp_length r <= Z.of_nat (List.length (chain bc))) responses ->
  consensus (GBlockChain bc) responses = (Return false, GBlockChain bc).
Proof.
  intro H. cbn [consensus].
  rewrite <- (app_nil_r responses), (consensus_loop_behind _ _ _ _ H).
  reflexivity.
Qed.

(** The first peer that reports more blocks sends a non-empty chain:
    [consensus] raises. *)
Lemma consensus_ahead (bc : BlockChain) (before after : list response)
    (r : response) :
  Forall (fun r => resp_length r <= Z.of_nat (List.length (chain bc))) before ->
  Z.of_nat (List.length (chain bc)) < resp_length r ->
  resp_chain r <> [] ->
  consensus (GBlockChain bc) (before ++ r :: after)
  = (Raise AttributeError, GBlockChain bc).
Proof.
  intros Hb Hlen Hne. cbn [consensus].
  rewrite (consensus_loop_behind _ _ _ _ Hb). cbn [consensus_loop].
  apply Z.ltb_lt in Hlen. rewrite Hlen, chain_is_valid_json.
  now destruct (resp_chain r).
Qed.

(** What the handler does once [mine] has sealed a block with a non-zero
    index, by what [consensus] answers on the ledger with that block. *)
Lemma mine_unconfirmed_data_mined (import_time : json) (fuel : nat)
    (bc : BlockChain) (peers : list peer) (new_block : Block) :
  mine import_time fuel bc
  = Some (Return (MinedIndex (index new_block)),
          mkBlockChain [] (chain bc ++ [new_block])) ->
  index new_block <> 0 ->
  (consensus (GBlockChain (mkBlockChain [] (chain bc ++ [new_block])))
     (map peer_answer peers)
   = (Return false, GBlockChain (mkBlockChain [] (chain bc ++ [new_block]))) ->
   mine_unconfirmed_data import_time fuel (GBlockChain bc) peers
   = Some (Return (Body ("Block #" ++ str_of_int (index new_block)
                         ++ " is mined")%string),
           GBlockChain (mkBlockChain [] (chain bc ++ [new_block])),
           announce_new_block (map peer_address peers) new_block)) /\
  (consensus (GBlockChain (mkBlockChain [] (chain bc ++ [new_block])))
     (map peer_answer peers)
   = (Raise AttributeError,
      GBlockChain (mkBlockChain [] (chain bc ++ [new_block]))) ->
   mine_unconfirmed_data import_time fuel (GBlockChain bc) peers
   = Some (Raise AttributeError,
           GBlockChain (mkBlockChain [] (chain bc ++ [new_block])), [])).
Proof.
  intros Hm Hi. apply Z.eqb_neq in Hi.
  split; intro Hc; unfold mine_unconfirmed_data; rewrite Hm, Hi, Hc.
  - rewrite Nat.eqb_refl. unfold last_block. cbn [chain].
    now rewrite rev_app_distr.
  - reflexivity.
Qed.

(** With records pending and a nonce [k] that solves the candidate's
    puzzle, when no peer reports more blocks than the chain has with the
    new block, the handler answers ["Block #n is mined"] with [n] the new
    block's index and posts the new block to every peer, in order; the
    ledger holds the new block and nothing is pending. *)
Theorem mine_unconfirmed_data_announces :
  forall (import_time : json) (bc : BlockChain) (last : Block) (h : string)
         (k : nat) (peers : list peer),
    unconfirmed_data bc <> [] ->
    last_block bc = Return last ->
    hashcode last = Some h ->
    index last + 1 <> 0 ->
    solves difficulty
      (Block_init import_time (index last + 1) (unconfirmed_data bc) h
         None None None) (Z.of_nat k) ->
    Forall (fun p => resp_length (peer_answer p)
                     <= Z.of_nat (S (List.length (chain bc)))) peers ->
    exists new_block,
      sealed new_block = true /\
      content new_block = unconfirmed_data bc /\
      forall fuel, (k < fuel)%nat ->
        mine_unconfirmed_data import_time fuel (GBlockChain bc) peers
        = Some (Return (Body ("Block #" ++ str_of_int (index last + 1)
                              ++ " is mined")%string),
                GBlockChain (mkBlockChain [] (chain bc ++ [new_block])),
                announce_new_block (map peer_address peers) new_block).
Proof.
  intros import_time bc last h k peers Hp Hlast Hh Hi Hk Hpeers.
  destruct (proof_of_work_terminates k _ difficulty
              (Block_init_consistent _ _ _ _ _ _ _) Hk) as (nb & Hpow).
  exists nb.
  destruct (mine_sealed_candidate _ _ _ _ _ _ Hp Hlast Hh Hpow)
    as (_ & Hidx & Hc & _ & Hs).
  split; [assumption|]. split; [assumption|].
  intros fuel Hfuel.
  assert (Hpow' := proof_of_work_more_fuel _ fuel _ _ _ Hpow Hfuel).
  destruct (mine_sealed_candidate _ _ _ _ _ _ Hp Hlast Hh Hpow') as (Hm & _).
  rewrite <- Hidx in Hm, Hi |- *.
  apply (mine_unconfirmed_data_mined import_time fuel bc peers nb Hm Hi).
  apply consensus_behind. apply Forall_map. cbn [chain].
  rewrite length_app. cbn [List.length].
  replace (List.length (chain bc) + 1)%nat with (S (List.length (chain bc)))
    by lia.
  exact Hpeers.
Qed.

Lemma mine_unconfirmed_data_announces_witness :
  exists new_block,
    sealed new_block = true /\
    content new_block = unconfirmed_data ex_pending /\
    forall fuel, (1 < fuel)%nat ->
      mine_unconfirmed_data ex_import_time fuel (GBlockChain ex_pending)
        [ex_peer_behind]
      = Some (Return (Body ("Block #" ++ str_of_int (index ex_genesis + 1)
                            ++ " is mined")%string),
              GBlockChain (mkBlockChain [] (chain ex_pending ++ [new_block])),
              announce_new_block (map peer_address [ex_peer_behind]) new_block).
Proof.
  apply (mine_unconfirmed_data_announces ex_import_time ex_pending ex_genesis
           ex_genesis_hash 1 [ex_peer_behind]).
  - discriminate.
  - reflexivity.
  - reflexivity.
  - discriminate.
  - vm_compute. reflexivity.
  - repeat constructor. discriminate.
Defined.

(** With records pending and a solving nonce [k], when the first peer that
    reports more blocks than the chain has with the new block sends a
    non-empty chain, the handler raises [AttributeError]: the new block
    stays in the ledger, the pending buffer is empty, and the block is
    posted to no peer. *)
Theorem mine_unconfirmed_data_peer_ahead :
  forall (import_time : json) (bc : BlockChain) (last : Block) (h : string)
         (k : nat) (before after : list peer) (p : peer),
    unconfirmed_data bc <> [] ->
    last_block bc = Return last ->
    hashcode last = Some h ->
    index last + 1 <> 0 ->
    solves difficulty
      (Block_init import_time (index last + 1) (unconfirmed_data bc) h
         None None None) (Z.of_nat k) ->
    Forall (fun p => resp_length (peer_answer p)
                     <= Z.of_nat (S (List.length (chain bc)))) before ->
    Z.of_nat (S (List.length (chain bc))) < resp_length (peer_answer p) ->
    resp_chain (peer_answer p) <> [] ->
    exists new_block,
      sealed new_block = true /\
      content new_block = unconfirmed_data bc /\
      forall fuel, (k < fuel)%nat ->
        mine_unconfirmed_data import_time fuel (GBlockChain bc)
          (before ++ p :: after)
        = Some (Raise AttributeError,
                GBlockChain (mkBlockChain [] (chain bc ++ [new_block])), []).
Proof.
  intros import_time bc last h k before after p Hp Hlast Hh Hi Hk Hb Hlen Hne.
  destruct (proof_of_work_terminates k _ difficulty
              (Block_init_consistent _ _ _ _ _ _ _) Hk) as (nb & Hpow).
  exists nb.
  destruct (mine_sealed_candidate _ _ _ _ _ _ Hp Hlast Hh Hpow)
    as (_ & Hidx & Hc & _ & Hs).
  split; [assumption|]. split; [assumption|].
  intros fuel Hfuel.
  assert (Hpow' := proof_of_work_more_fuel _ fuel _ _ _ Hpow Hfuel).
  destruct (mine_sealed_candidate _ _ _ _ _ _ Hp Hlast Hh Hpow') as (Hm & _).
  rewrite <- Hidx in Hm, Hi.
  apply (mine_unconfirmed_data_mined import_time fuel bc _ nb Hm Hi).
  assert (Hl : List.length (chain (mkBlockChain [] (chain bc ++ [nb])))
               = S (List.length (chain bc)))
    by (cbn [chain]; rewrite length_app; cbn [List.length]; lia).
  rewrite map_app. cbn [map].
  apply consensus_ahead; rewrite ?Hl; try assumption.
  now apply Forall_map.
Qed.

Lemma mine_unconfirmed_data_peer_ahead_witness :
  exists new_block,
    sealed new_block = true /\
    content new_block = unconfirmed_data ex_pending /\
    forall fuel, (1 < fuel)%nat ->
      mine_unconfirmed_data ex_import_time fuel (GBlockChain ex_pending)
        ([ex_peer_behind] ++ ex_peer_ahead :: [])
      = Some (Raise AttributeError,
              GBlockChain (mkBlockChain [] (chain ex_pending ++ [new_block])),
              []).
Proof.
  apply (mine_unconfirmed_data_peer_ahead ex_import_time ex_pending ex_genesis
           ex_genesis_hash 1 [ex_peer_behind] [] ex_peer_ahead).
  - discriminate.
  - reflexivity.
  - reflexivity.
  - discriminate.
  - vm_compute. reflexivity.
  - repeat constructor. discriminate.
  - reflexivity.
  - discriminate.
Defined.

(** The run: the two records are mined on request with a peer that is
    behind; the block is posted to it, as the body below. *)
Example mine_unconfirmed_data_run :
  mine_unconfirmed_data ex_import_time 2 (GBlockChain ex_pending) [ex_peer_behind]
  = Some (Return (Body "Block #1 is mined"), GBlockChain ex_mined,
          [("http://10.0.0.2:8000/add_block",
            json_dumps (Block_dict ex_block1))]).
Proof. vm_compute. reflexivity. Qed.

(** ** No exception in a reached ledger *)



